(** * The iterator module of the resolver (iterator/iterator.c)

    A shallow embedding of the iterative resolution module: the response
    assembler ([iter_prepend], [iter_encode_respmsg], [error_response]), the
    transition helpers ([next_state], [final_state]), the [processInitRequest]
    handler, the driving loop [iter_handle], the forwarding path
    ([fwd_new], [iter_handlereply], [perform_forward]) and the entry point
    [iter_operate].

    C structures become records, functions that mutate their arguments
    return the new values, and the calls made to the collaborators of the
    module (caches, transport, log) are recorded, oldest first, in a trace
    carried by the query state. *)

From Stdlib Require Import ZArith Bool String List Lia.
Import ListNotations.
Open Scope Z_scope.

(** ** Machine integers *)

(** [int] is a 32-bit two's complement integer. *)
Definition INT_MAX : Z := 2 ^ 31 - 1.
Definition int_wrap (z : Z) : Z := (z + 2 ^ 31) mod 2 ^ 32 - 2 ^ 31.

(** [size_t] arithmetic is modulo 2^64. *)
Definition size_wrap (z : Z) : Z := z mod 2 ^ 64.

(** [uint16_t] flags. *)
Definition u16 (z : Z) : Z := z mod 2 ^ 16.

(** ** Constants of the ldns library (RFC 1035, RFC 4034) *)

Definition LDNS_RR_TYPE_DS : Z := 43.
Definition LDNS_RCODE_SERVFAIL : Z := 2.
Definition LDNS_RCODE_MASK : Z := 15.
Definition LDNS_QR_MASK : Z := 128.

(** ** Data *)

(** A domain name in wire format: [uint8_t*], a sequence of labels each
    preceded by its length, ended by the root label 0. *)
Definition dname : Type := list Z.

Record query_info : Type := {
  qname : dname;
  qname_len : Z;
  qtype : Z;
  qclass : Z;
  has_cd : bool
}.

Record edns_data : Type := {
  edns_present : bool;
  ext_rcode : Z;
  edns_version : Z;
  bits : Z;
  udp_size : Z
}.

(** The key structure and the data of a packed rrset; iter_prepend copies
    the first whole and shares the second, so their content is left open. *)
Definition packed_rrset_key : Type := list Z.
Definition packed_rrset_data : Type := list Z.

(** [struct ub_packed_rrset_key], with the two fields the module writes:
    [rk] and [entry.data]. *)
Record ub_packed_rrset_key : Type := {
  rk : packed_rrset_key;
  entry_data : packed_rrset_data
}.

(** One element of the prepend list: [p->rrset.k] and [p->rrset.d]. The
    linked list [iq->prepend_list] is the list of these, head first. *)
Record packed_rrset : Type := {
  rrset_k : packed_rrset_key;
  rrset_d : packed_rrset_data
}.

(** [struct reply_info]: the array [rrsets] and the number [rrset_count] of
    entries of it that belong to the reply. *)
Record reply_info : Type := {
  rrset_count : nat;
  rrsets : list ub_packed_rrset_key
}.

Record dns_msg : Type := {
  msg_qinfo : query_info;
  rep : reply_info
}.

(** The record sets of a reply as the module reads them: the first
    [rrset_count] entries of [rrsets] (the memcpy of iter_prepend). *)
Definition reply_rrsets (r : reply_info) : list ub_packed_rrset_key :=
  firstn (rrset_count r) (rrsets r).

Definition sockaddr : Type := list Z.
Definition delegpt : Type := list sockaddr.
Definition outbound_entry : Type := Z.

Inductive iter_state : Type :=
| INIT_REQUEST_STATE
| INIT_REQUEST_2_STATE
| INIT_REQUEST_3_STATE
| QUERYTARGETS_STATE
| QUERY_RESP_STATE
| PRIME_RESP_STATE
| TARGET_RESP_STATE
| FINISHED_STATE.

Inductive module_ext_state : Type :=
| module_state_initial
| module_wait_reply
| module_error
| module_finished.

(** The events the module names; [module_event_other] stands for every
    other enumerator. *)
Inductive module_ev : Type :=
| module_event_new
| module_event_reply
| module_event_timeout
| module_event_error
| module_event_other.

Record iter_qstate : Type := {
  state : iter_state;
  final_state_of : iter_state;
  prepend_list : list packed_rrset;
  dp : option delegpt;
  current_target : option sockaddr;
  num_target_queries : Z;
  num_current_queries : Z;
  query_restart_count : Z;
  referral_count : Z;
  priming_stub : Z;
  orig_qname : option dname;
  orig_qnamelen : Z;
  orig_qflags : Z;
  outlist : list outbound_entry
}.

(** [struct iter_env], the part the module reads. *)
Record iter_env : Type := {
  max_dependency_depth : Z;
  fwd_addr : sockaddr;
  fwd_addrlen : Z
}.

(** What the module has stored into the message cache, newest first. The
    cache lookups are functions of it. *)
Definition cache : Type := list (query_info * Z * reply_info).

(** [struct module_env]: [modinfo] is the slot of this module. *)
Record module_env : Type := {
  modinfo : iter_env;
  msg_cache : cache
}.

(** A region allocator, as the outcomes of the allocations to come (true:
    memory is returned, false: NULL); past the list every allocation
    succeeds. *)
Definition region : Type := list bool.

Definition region_alloc (r : region) : bool * region :=
  match r with
  | [] => (true, [])
  | b :: r' => (b, r')
  end.

(** Calls to the collaborators of the module: the two cache lookups, the
    transport, the cache store, and the lines of log_err and log_warn (the
    diagnostics of verbose and log_info are not recorded). *)
Inductive call : Type :=
| CacheLookup (n : dname) (len qt qc : Z) (cd : bool)
| FindDelegation (n : dname) (len qc : Z)
| SendQuery (n : dname) (len qt qc flags dnssec : Z) (addr : sockaddr) (addrlen : Z)
| CacheStore (qi : query_info) (hash : Z) (r : reply_info)
| LogErr (s : string)
| LogWarn (s : string).

(** [struct module_qstate]. [minfo] and [ext_state] are the slots of this
    module; [reply] is the buffer of the reply, when there is one;
    [subreq_depth] is the length of the parent chain, which
    module_subreq_depth counts; [trace] is the calls made so far. *)
Record module_qstate : Type := {
  qinfo : query_info;
  query_flags : Z;
  query_hash : Z;
  edns : edns_data;
  buf : list Z;
  reply : option (list Z);
  qregion : region;
  env : module_env;
  minfo : option iter_qstate;
  ext_state : module_ext_state;
  subreq_depth : Z;
  trace : list call
}.

(** Field updates. *)

Definition set_state (iq : iter_qstate) (s : iter_state) : iter_qstate :=
  {| state := s; final_state_of := final_state_of iq;
     prepend_list := prepend_list iq; dp := dp iq;
     current_target := current_target iq;
     num_target_queries := num_target_queries iq;
     num_current_queries := num_current_queries iq;
     query_restart_count := query_restart_count iq;
     referral_count := referral_count iq; priming_stub := priming_stub iq;
     orig_qname := orig_qname iq; orig_qnamelen := orig_qnamelen iq;
     orig_qflags := orig_qflags iq; outlist := outlist iq |}.

Definition set_final_state (iq : iter_qstate) (s : iter_state) : iter_qstate :=
  {| state := state iq; final_state_of := s;
     prepend_list := prepend_list iq; dp := dp iq;
     current_target := current_target iq;
     num_target_queries := num_target_queries iq;
     num_current_queries := num_current_queries iq;
     query_restart_count := query_restart_count iq;
     referral_count := referral_count iq; priming_stub := priming_stub iq;
     orig_qname := orig_qname iq; orig_qnamelen := orig_qnamelen iq;
     orig_qflags := orig_qflags iq; outlist := outlist iq |}.

Definition set_query_restart_count (iq : iter_qstate) (c : Z) : iter_qstate :=
  {| state := state iq; final_state_of := final_state_of iq;
     prepend_list := prepend_list iq; dp := dp iq;
     current_target := current_target iq;
     num_target_queries := num_target_queries iq;
     num_current_queries := num_current_queries iq;
     query_restart_count := c;
     referral_count := referral_count iq; priming_stub := priming_stub iq;
     orig_qname := orig_qname iq; orig_qnamelen := orig_qnamelen iq;
     orig_qflags := orig_qflags iq; outlist := outlist iq |}.

Definition set_prepend_list (iq : iter_qstate) (l : list packed_rrset)
    : iter_qstate :=
  {| state := state iq; final_state_of := final_state_of iq;
     prepend_list := l; dp := dp iq;
     current_target := current_target iq;
     num_target_queries := num_target_queries iq;
     num_current_queries := num_current_queries iq;
     query_restart_count := query_restart_count iq;
     referral_count := referral_count iq; priming_stub := priming_stub iq;
     orig_qname := orig_qname iq; orig_qnamelen := orig_qnamelen iq;
     orig_qflags := orig_qflags iq; outlist := outlist iq |}.

Definition set_dp (iq : iter_qstate) (p : option delegpt) : iter_qstate :=
  {| state := state iq; final_state_of := final_state_of iq;
     prepend_list := prepend_list iq; dp := p;
     current_target := current_target iq;
     num_target_queries := num_target_queries iq;
     num_current_queries := num_current_queries iq;
     query_restart_count := query_restart_count iq;
     referral_count := referral_count iq; priming_stub := priming_stub iq;
     orig_qname := orig_qname iq; orig_qnamelen := orig_qnamelen iq;
     orig_qflags := orig_qflags iq; outlist := outlist iq |}.

Definition set_outlist (iq : iter_qstate) (l : list outbound_entry) : iter_qstate :=
  {| state := state iq; final_state_of := final_state_of iq;
     prepend_list := prepend_list iq; dp := dp iq;
     current_target := current_target iq;
     num_target_queries := num_target_queries iq;
     num_current_queries := num_current_queries iq;
     query_restart_count := query_restart_count iq;
     referral_count := referral_count iq; priming_stub := priming_stub iq;
     orig_qname := orig_qname iq; orig_qnamelen := orig_qnamelen iq;
     orig_qflags := orig_qflags iq; outlist := l |}.

Definition set_buf (qs : module_qstate) (b : list Z) : module_qstate :=
  {| qinfo := qinfo qs; query_flags := query_flags qs;
     query_hash := query_hash qs; edns := edns qs; buf := b;
     reply := reply qs; qregion := qregion qs; env := env qs;
     minfo := minfo qs; ext_state := ext_state qs;
     subreq_depth := subreq_depth qs; trace := trace qs |}.

Definition set_edns (qs : module_qstate) (e : edns_data) : module_qstate :=
  {| qinfo := qinfo qs; query_flags := query_flags qs;
     query_hash := query_hash qs; edns := e; buf := buf qs;
     reply := reply qs; qregion := qregion qs; env := env qs;
     minfo := minfo qs; ext_state := ext_state qs;
     subreq_depth := subreq_depth qs; trace := trace qs |}.

Definition set_qregion (qs : module_qstate) (r : region) : module_qstate :=
  {| qinfo := qinfo qs; query_flags := query_flags qs;
     query_hash := query_hash qs; edns := edns qs; buf := buf qs;
     reply := reply qs; qregion := r; env := env qs;
     minfo := minfo qs; ext_state := ext_state qs;
     subreq_depth := subreq_depth qs; trace := trace qs |}.

Definition set_env (qs : module_qstate) (e : module_env) : module_qstate :=
  {| qinfo := qinfo qs; query_flags := query_flags qs;
     query_hash := query_hash qs; edns := edns qs; buf := buf qs;
     reply := reply qs; qregion := qregion qs; env := e;
     minfo := minfo qs; ext_state := ext_state qs;
     subreq_depth := subreq_depth qs; trace := trace qs |}.

Definition set_minfo (qs : module_qstate) (m : option iter_qstate) : module_qstate :=
  {| qinfo := qinfo qs; query_flags := query_flags qs;
     query_hash := query_hash qs; edns := edns qs; buf := buf qs;
     reply := reply qs; qregion := qregion qs; env := env qs;
     minfo := m; ext_state := ext_state qs;
     subreq_depth := subreq_depth qs; trace := trace qs |}.

Definition set_ext_state (qs : module_qstate) (s : module_ext_state) : module_qstate :=
  {| qinfo := qinfo qs; query_flags := query_flags qs;
     query_hash := query_hash qs; edns := edns qs; buf := buf qs;
     reply := reply qs; qregion := qregion qs; env := env qs;
     minfo := minfo qs; ext_state := s;
     subreq_depth := subreq_depth qs; trace := trace qs |}.

(** Record a call at the end of the trace. *)
Definition record (qs : module_qstate) (c : call) : module_qstate :=
  {| qinfo := qinfo qs; query_flags := query_flags qs;
     query_hash := query_hash qs; edns := edns qs; buf := buf qs;
     reply := reply qs; qregion := qregion qs; env := env qs;
     minfo := minfo qs; ext_state := ext_state qs;
     subreq_depth := subreq_depth qs; trace := trace qs ++ [c] |}.

Definition set_rrsets (m : dns_msg) (l : list ub_packed_rrset_key) : dns_msg :=
  {| msg_qinfo := msg_qinfo m;
     rep := {| rrset_count := rrset_count (rep m); rrsets := l |} |}.

(** Results of the functions that may dereference NULL or loop. *)
Inductive result (A : Type) : Type :=
| Ok (a : A)
| Undefined
| OutOfFuel.
Arguments Ok {A} a.
Arguments Undefined {A}.
Arguments OutOfFuel {A}.

Definition bind {A B : Type} (m : result A) (f : A -> result B) : result B :=
  match m with
  | Ok a => f a
  | Undefined => Undefined
  | OutOfFuel => OutOfFuel
  end.

Notation "'let*' x ':=' m 'in' f" := (bind m (fun x => f))
  (at level 10, x pattern, m at level 100, f at level 200).

(** ** Constants and collaborators that live outside this file *)

(** Constants of the headers of the resolver (iterator.h and the util
    headers), whose values this file does not fix. *)
Record iter_consts : Type := {
  MAX_RESTART_COUNT : Z;
  BIT_CD : Z;
  EDNS_ADVERTISED_VERSION : Z;
  EDNS_ADVERTISED_SIZE : Z;
  EDNS_DO : Z
}.

(** The collaborators, by their results: the two cache lookups, the
    transport ([env->send_query]), the wire decoder and encoders, and the
    clock ([time(NULL)]). The regions and the allocator they are handed are
    left out of their arguments. *)
Record collaborators : Type := {
  dns_cache_lookup :
    module_env -> dname -> Z -> Z -> Z -> bool -> option dns_msg;
  dns_cache_find_delegation :
    module_env -> dname -> Z -> Z -> option delegpt;
  send_query :
    dname -> Z -> Z -> Z -> Z -> Z -> sockaddr -> Z -> option outbound_entry;
  reply_info_parse :
    list Z -> option (query_info * reply_info * edns_data);
  reply_info_answer_encode :
    query_info -> reply_info -> Z -> Z -> Z -> Z -> Z -> edns_data ->
    option (list Z);
  qinfo_query_encode : query_info -> list Z;
  time_now : Z
}.

(** dns_cache_store_msg adds the reply to the message cache. *)
Definition dns_cache_store_msg (e : module_env) (qi : query_info) (h : Z)
    (r : reply_info) : module_env :=
  {| modinfo := modinfo e; msg_cache := (qi, h, r) :: msg_cache e |}.

(** module_subreq_depth counts the parents of the query. *)
Definition module_subreq_depth (qs : module_qstate) : Z := subreq_depth qs.

(** outbound_list_insert puts the entry at the head of the list. *)
Definition outbound_list_insert (l : list outbound_entry) (e : outbound_entry)
    : list outbound_entry := e :: l.

(** Write [f] of byte [i] at byte [i] of a buffer that has one. *)
Definition poke (i : nat) (f : Z -> Z) (b : list Z) : list Z :=
  match nth_error b i with
  | Some x => firstn i b ++ f x :: skipn (S i) b
  | None => b
  end.

(** The header macros of ldns: the rcode is the low nibble of byte 3, the
    QR flag the high bit of byte 2. *)
Definition LDNS_RCODE_SET (b : list Z) (r : Z) : list Z :=
  poke 3 (fun x => Z.lor (Z.land x (Z.lnot LDNS_RCODE_MASK)) r mod 256) b.

Definition LDNS_QR_SET (b : list Z) : list Z :=
  poke 2 (fun x => Z.lor x LDNS_QR_MASK mod 256) b.

Definition LDNS_RCODE_WIRE (b : list Z) : Z :=
  Z.land (nth 3 b 0) LDNS_RCODE_MASK.

Definition LDNS_QR_WIRE (b : list Z) : bool :=
  Z.testbit (nth 2 b 0) 7.

(** A query state after [memset(iq, 0, sizeof( *iq))]; the enumerator of
    value 0 is [INIT_REQUEST_STATE], the first of the enumeration. *)
Definition iq_zero : iter_qstate :=
  {| state := INIT_REQUEST_STATE; final_state_of := INIT_REQUEST_STATE;
     prepend_list := []; dp := None; current_target := None;
     num_target_queries := 0; num_current_queries := 0;
     query_restart_count := 0; referral_count := 0; priming_stub := 0;
     orig_qname := None; orig_qnamelen := 0; orig_qflags := 0;
     outlist := [] |}.

(** ** Response state classification *)

Definition iter_state_is_responsestate (s : iter_state) : bool :=
  match s with
  | INIT_REQUEST_STATE
  | INIT_REQUEST_2_STATE
  | INIT_REQUEST_3_STATE
  | QUERYTARGETS_STATE => false
  | _ => true
  end.

(** ** Splicing the prepend list *)

(** The second loop of iter_prepend: one allocation per entry, which
    receives the key and the data pointer of the entry; NULL ends it. *)
Fixpoint prepend_copy (p : list packed_rrset) (r : region)
    : option (list ub_packed_rrset_key) * region :=
  match p with
  | [] => (Some [], r)
  | e :: p' =>
      let (ok, r1) := region_alloc r in
      if ok then
        let (rest, r2) := prepend_copy p' r1 in
        (option_map (cons {| rk := rrset_k e; entry_data := rrset_d e |}) rest, r2)
      else (None, r1)
  end.

Definition iter_prepend (iq : iter_qstate) (msg : dns_msg) (r : region)
    : bool * dns_msg * region :=
  let num := List.length (prepend_list iq) in
  if (num =? 0)%nat then (true, msg, r)
  else
    let (ok, r1) := region_alloc r in
    if negb ok then (false, msg, r1)
    else
      let copied := firstn (rrset_count (rep msg)) (rrsets (rep msg)) in
      match prepend_copy (prepend_list iq) r1 with
      | (None, r2) => (false, msg, r2)
      | (Some sets, r2) => (true, set_rrsets msg (sets ++ copied), r2)
      end.

Section Iterator.

Variable K : iter_consts.
Variable X : collaborators.

(** ** Transitions *)

Definition next_state (qs : module_qstate) (iq : iter_qstate)
    (nextstate : iter_state) : bool * module_qstate * iter_qstate :=
  let qs1 :=
    if iter_state_is_responsestate nextstate then
      match reply qs with
      | None => record qs (LogErr "transitioning to response state sans response.")
      | Some _ => qs
      end
    else qs in
  (true, qs1, set_state iq nextstate).

Definition final_state (qs : module_qstate) (iq : iter_qstate)
    : bool * module_qstate * iter_qstate :=
  next_state qs iq (final_state_of iq).

(** The buffer error_response leaves: the query section with the rcode and
    the QR flag set in the header. *)
Definition error_packet (qi : query_info) (rcode : Z) : list Z :=
  LDNS_QR_SET (LDNS_RCODE_SET (qinfo_query_encode X qi) rcode).

Definition error_response (qs : module_qstate) (iq : iter_qstate) (rcode : Z)
    : bool * module_qstate * iter_qstate :=
  final_state (set_buf qs (error_packet (qinfo qs) rcode)) iq.

(** ** Encoding the response *)

(** The question echoed to the client: the original name when the query
    name was rewritten. *)
Definition answer_qinfo (qs : module_qstate) (iq : iter_qstate) : query_info :=
  match orig_qname iq with
  | Some n =>
      {| qname := n; qname_len := orig_qnamelen iq;
         qtype := qtype (qinfo qs); qclass := qclass (qinfo qs);
         has_cd := has_cd (qinfo qs) |}
  | None => qinfo qs
  end.

(** The EDNS record both encoders are given: the advertised version and
    size, no extended rcode, the DO bit of the query. *)
Definition advertised_edns (qs : module_qstate) : edns_data :=
  {| edns_present := edns_present (edns qs);
     ext_rcode := 0;
     edns_version := EDNS_ADVERTISED_VERSION K;
     bits := Z.land (bits (edns qs)) (EDNS_DO K);
     udp_size := EDNS_ADVERTISED_SIZE K |}.

(** The splice of iter_encode_respmsg: iter_prepend, when the prepend list
    is not empty. *)
Definition splice (qs : module_qstate) (iq : iter_qstate) (msg : dns_msg)
    : bool * dns_msg * region :=
  match prepend_list iq with
  | [] => (true, msg, qregion qs)
  | _ :: _ => iter_prepend iq msg (qregion qs)
  end.

(** A failed encoder leaves the buffer to its caller, who writes the error
    response over it. *)
Definition iter_encode_respmsg (qs : module_qstate) (iq : iter_qstate)
    (msg : dns_msg) : module_qstate * iter_qstate * dns_msg :=
  let qinf := answer_qinfo qs iq in
  let now := time_now X mod 2 ^ 32 in
  let '(ok, msg1, r1) := splice qs iq msg in
  let qs1 := set_qregion qs r1 in
  if negb ok then
    let '(_, qs2, iq2) := error_response qs1 iq LDNS_RCODE_SERVFAIL in
    (qs2, iq2, msg1)
  else
    let e := advertised_edns qs in
    match reply_info_answer_encode X qinf (rep msg1) 0 (orig_qflags iq) now 1
            (udp_size (edns qs)) e with
    | Some b => (set_buf qs1 b, iq, msg1)
    | None =>
        let '(_, qs2, iq2) := error_response qs1 iq LDNS_RCODE_SERVFAIL in
        (qs2, iq2, msg1)
    end.

(** ** The InitRequest handler *)

(** The name the delegation lookup is made on: the query name, without its
    first label for a DS query below the root. *)
Definition delegation_name (qi : query_info) : dname * Z :=
  if (qtype qi =? LDNS_RR_TYPE_DS) && negb (nth 0 (qname qi) 0 =? 0) then
    let lablen := nth 0 (qname qi) 0 + 1 in
    (skipn (Z.to_nat lablen) (qname qi), size_wrap (qname_len qi - lablen))
  else (qname qi, qname_len qi).

(** On a cache hit the test on the type of the response is commented out,
    so the restart block runs for every message and the two statements
    after it (iter_encode_respmsg, final_state) are never reached. *)
Definition processInitRequest (qs : module_qstate) (iq : iter_qstate)
    (ie : iter_env) : bool * module_qstate * iter_qstate :=
  if MAX_RESTART_COUNT K <? query_restart_count iq then
    error_response qs iq LDNS_RCODE_SERVFAIL
  else
    let depth := module_subreq_depth qs in
    if max_dependency_depth ie <? depth then
      error_response qs iq LDNS_RCODE_SERVFAIL
    else
      let qi := qinfo qs in
      let qs1 :=
        record qs (CacheLookup (qname qi) (qname_len qi) (qtype qi)
                     (qclass qi) (has_cd qi)) in
      match dns_cache_lookup X (env qs) (qname qi) (qname_len qi) (qtype qi)
              (qclass qi) (has_cd qi) with
      | Some msg =>
          let iq1 :=
            set_query_restart_count iq
              (int_wrap (query_restart_count iq + 1)) in
          next_state qs1 iq1 INIT_REQUEST_STATE
      | None =>
          let (delname, delnamelen) := delegation_name qi in
          let qs2 := record qs1 (FindDelegation delname delnamelen (qclass qi)) in
          let iq1 :=
            set_dp iq
              (dns_cache_find_delegation X (env qs) delname delnamelen
                 (qclass qi)) in
          match dp iq1 with
          | None => (false, qs2, iq1)
          | Some _ => next_state qs2 iq1 INIT_REQUEST_2_STATE
          end
      end.

(** ** The driving loop *)

(** Every handler but processInitRequest is compiled out, so every other
    state takes the default branch. One unit of fuel per turn of the loop. *)
Fixpoint iter_handle (fuel : nat) (qs : module_qstate) (iq : iter_qstate)
    (ie : iter_env) : result (module_qstate * iter_qstate) :=
  match fuel with
  | O => OutOfFuel
  | S fuel' =>
      match state iq with
      | INIT_REQUEST_STATE =>
          let '(cont, qs1, iq1) := processInitRequest qs iq ie in
          if cont then iter_handle fuel' qs1 iq1 ie else Ok (qs1, iq1)
      | _ => Ok (record qs (LogWarn "iterator: invalid state"), iq)
      end
  end.

Definition process_request (fuel : nat) (qs : module_qstate)
    (iq : iter_qstate) (ie : iter_env) : result (module_qstate * iter_qstate) :=
  let iq1 := set_final_state (set_state iq INIT_REQUEST_STATE) FINISHED_STATE in
  iter_handle fuel qs iq1 ie.

Definition process_response (fuel : nat) (qs : module_qstate)
    (iq : iter_qstate) (ie : iter_env) : result (module_qstate * iter_qstate) :=
  iter_handle fuel qs (set_state iq QUERY_RESP_STATE) ie.

(** ** New queries *)

Definition iter_new (qs : module_qstate) : bool * module_qstate :=
  let (ok, r1) := region_alloc (qregion qs) in
  let qs1 := set_qregion qs r1 in
  if negb ok then (false, set_minfo qs1 None)
  else
    let iq :=
      {| state := INIT_REQUEST_STATE; final_state_of := FINISHED_STATE;
         prepend_list := []; dp := None; current_target := None;
         num_target_queries := -1; num_current_queries := 0;
         query_restart_count := 0; referral_count := 0; priming_stub := 0;
         orig_qname := None; orig_qnamelen := 0;
         orig_qflags := query_flags qs; outlist := [] |} in
    (true, set_minfo qs1 (Some iq)).

Definition fwd_new (qs : module_qstate) : bool * module_qstate :=
  let (ok, r1) := region_alloc (qregion qs) in
  let ie := modinfo (env qs) in
  let flags := 0 in
  let dnssec := 1 in
  let qs1 := set_qregion qs r1 in
  if negb ok then (false, set_minfo qs1 None)
  else
    let iq := iq_zero in
    let qs2 := set_minfo qs1 (Some iq) in
    let qi := qinfo qs in
    let flags := if has_cd qi then u16 (Z.lor flags (BIT_CD K)) else flags in
    let qs3 :=
      record qs2 (SendQuery (qname qi) (qname_len qi) (qtype qi) (qclass qi)
                    flags dnssec (fwd_addr ie) (fwd_addrlen ie)) in
    match send_query X (qname qi) (qname_len qi) (qtype qi) (qclass qi)
            flags dnssec (fwd_addr ie) (fwd_addrlen ie) with
    | None => (false, qs3)
    | Some e =>
        let iq1 := set_outlist iq (outbound_list_insert (outlist iq) e) in
        (true, set_ext_state (set_minfo qs3 (Some iq1)) module_wait_reply)
    end.

(** ** Forwarding *)

(** Without a reply, [qstate->reply->c->buffer] dereferences NULL. *)
Definition iter_handlereply (qs : module_qstate) : result (bool * module_qstate) :=
  let us := udp_size (edns qs) in
  match reply qs with
  | None => Undefined
  | Some buffer =>
      match reply_info_parse X buffer with
      | None => Ok (false, qs)
      | Some (reply_qinfo, reply_msg, reply_edns) =>
          let e := advertised_edns qs in
          let qs1 := set_edns qs e in
          match reply_info_answer_encode X reply_qinfo reply_msg 0
                  (query_flags qs) 0 0 us e with
          | None => Ok (false, qs1)
          | Some b =>
              let qs2 := set_buf qs1 b in
              let qs3 :=
                record
                  (set_env qs2
                     (dns_cache_store_msg (env qs2) reply_qinfo
                        (query_hash qs2) reply_msg))
                  (CacheStore reply_qinfo (query_hash qs2) reply_msg) in
              Ok (true, set_ext_state qs3 module_finished)
          end
      end
  end.

Definition perform_forward (qs : module_qstate) (event : module_ev)
    (outbound : option outbound_entry) : result module_qstate :=
  match event with
  | module_event_new =>
      let (ok, qs1) := fwd_new qs in
      Ok (if ok then qs1 else set_ext_state qs1 module_error)
  | _ =>
      match outbound with
      | None => Ok (set_ext_state qs module_error)
      | Some _ =>
          match event with
          | module_event_timeout | module_event_error =>
              Ok (set_ext_state qs module_error)
          | module_event_reply =>
              let* (ok, qs1) := iter_handlereply qs in
              Ok (if ok then qs1 else set_ext_state qs1 module_error)
          | _ =>
              Ok (set_ext_state (record qs (LogErr "bad event for iterator[forwarding]"))
                    module_error)
          end
      end
  end.

(** ** The entry point *)

(** A reply event for a query without iterator state writes through the
    NULL [iq]. *)
Definition iter_operate (fuel : nat) (qs : module_qstate) (event : module_ev)
    (outbound : option outbound_entry) : result module_qstate :=
  let ie := modinfo (env qs) in
  if negb (fwd_addrlen ie =? 0) then perform_forward qs event outbound
  else
    match event with
    | module_event_new =>
        match iter_new qs with
        | (true, qs1) =>
            match minfo qs1 with
            | Some iq =>
                let* (qs2, iq2) := process_request fuel qs1 iq ie in
                Ok (set_minfo qs2 (Some iq2))
            | None => Undefined
            end
        | (false, qs1) => Ok (set_ext_state qs1 module_error)
        end
    | module_event_reply =>
        match minfo qs with
        | Some iq =>
            let* (qs2, iq2) := process_response fuel qs iq ie in
            Ok (set_minfo qs2 (Some iq2))
        | None => Undefined
        end
    | _ =>
        Ok (set_ext_state (record qs (LogErr "bad event for iterator"))
              module_error)
    end.

End Iterator.

(** * Vocabulary of the properties *)

(** The entry iter_prepend allocates for an element of the prepend list. *)
Definition copy_of (e : packed_rrset) : ub_packed_rrset_key :=
  {| rk := rrset_k e; entry_data := rrset_d e |}.

(** The outcomes of the next [n] allocations are all successes. *)
Definition allocs_succeed (n : nat) (r : region) : bool :=
  forallb (fun b => b) (firstn n r).

(** The calls of a trace that are cache or delegation lookups, and those
    that send an upstream query. *)
Definition is_lookup (c : call) : bool :=
  match c with
  | CacheLookup _ _ _ _ _ | FindDelegation _ _ _ => true
  | _ => false
  end.

Definition is_send (c : call) : bool :=
  match c with
  | SendQuery _ _ _ _ _ _ _ _ => true
  | _ => false
  end.

Definition lookups (t : list call) : list call := filter is_lookup t.
Definition sends (t : list call) : list call := filter is_send t.

(** The cache lookup processInitRequest makes for a query. *)
Definition cache_lookup_of (X : collaborators) (qs : module_qstate)
    : option dns_msg :=
  dns_cache_lookup X (env qs) (qname (qinfo qs)) (qname_len (qinfo qs))
    (qtype (qinfo qs)) (qclass (qinfo qs)) (has_cd (qinfo qs)).

Definition cache_lookup_call (qs : module_qstate) : call :=
  CacheLookup (qname (qinfo qs)) (qname_len (qinfo qs)) (qtype (qinfo qs))
    (qclass (qinfo qs)) (has_cd (qinfo qs)).

(** The delegation lookup it makes after a cache miss. *)
Definition delegation_lookup_of (X : collaborators) (qs : module_qstate)
    : option delegpt :=
  dns_cache_find_delegation X (env qs) (fst (delegation_name (qinfo qs)))
    (snd (delegation_name (qinfo qs))) (qclass (qinfo qs)).

Definition delegation_lookup_call (qs : module_qstate) : call :=
  FindDelegation (fst (delegation_name (qinfo qs)))
    (snd (delegation_name (qinfo qs))) (qclass (qinfo qs)).

(** The wire format of a name given by its labels, leftmost first. *)
Fixpoint dname_wire (labels : list (list Z)) : dname :=
  match labels with
  | [] => [0]
  | l :: rest => Z.of_nat (List.length l) :: l ++ dname_wire rest
  end.

(** A query name in wire format: its labels are not empty, its length
    field is its length, at most the 255 octets of a domain name. *)
Definition wire_qname (qi : query_info) (labels : list (list Z)) : Prop :=
  qname qi = dname_wire labels /\
  Forall (fun l => l <> []) labels /\
  qname_len qi = Z.of_nat (List.length (qname qi)) /\
  qname_len qi <= 255.

(** The encoder call of iter_encode_respmsg on the spliced message. *)
Definition answer_encode_of (K : iter_consts) (X : collaborators)
    (qs : module_qstate) (iq : iter_qstate) (msg1 : dns_msg) : option (list Z) :=
  reply_info_answer_encode X (answer_qinfo qs iq) (rep msg1) 0 (orig_qflags iq)
    (time_now X mod 2 ^ 32) 1 (udp_size (edns qs)) (advertised_edns K qs).

(** The query fwd_new sends: the question of the client, the CD flag when
    the client set it, DNSSEC records asked for, to the forward address. *)
Definition forward_query (K : iter_consts) (qs : module_qstate) : call :=
  SendQuery (qname (qinfo qs)) (qname_len (qinfo qs)) (qtype (qinfo qs))
    (qclass (qinfo qs))
    (if has_cd (qinfo qs) then u16 (BIT_CD K) else 0) 1
    (fwd_addr (modinfo (env qs))) (fwd_addrlen (modinfo (env qs))).

Definition forward_send (K : iter_consts) (X : collaborators)
    (qs : module_qstate) : option outbound_entry :=
  send_query X (qname (qinfo qs)) (qname_len (qinfo qs)) (qtype (qinfo qs))
    (qclass (qinfo qs))
    (if has_cd (qinfo qs) then u16 (BIT_CD K) else 0) 1
    (fwd_addr (modinfo (env qs))) (fwd_addrlen (modinfo (env qs))).

(** * A concrete resolver, for the examples *)

Definition K0 : iter_consts :=
  {| MAX_RESTART_COUNT := 8; BIT_CD := 16;
     EDNS_ADVERTISED_VERSION := 0; EDNS_ADVERTISED_SIZE := 4096;
     EDNS_DO := 32768 |}.

(** example.com. and child.example.com. in wire format. *)
Definition example_com : dname :=
  [7; 101; 120; 97; 109; 112; 108; 101; 3; 99; 111; 109; 0].
Definition child_example_com : dname :=
  [5; 99; 104; 105; 108; 100] ++ example_com.

Definition qi_example_A : query_info :=
  {| qname := example_com; qname_len := 13; qtype := 1; qclass := 1;
     has_cd := false |}.

Definition rrset_A : packed_rrset := {| rrset_k := [1]; rrset_d := [10] |}.
Definition rrset_B : packed_rrset := {| rrset_k := [2]; rrset_d := [20] |}.
Definition rrset_C : ub_packed_rrset_key := {| rk := [3]; entry_data := [30] |}.
Definition rrset_D : ub_packed_rrset_key := {| rk := [4]; entry_data := [40] |}.

(** A cached answer with the record sets C and D. *)
Definition msg_CD : dns_msg :=
  {| msg_qinfo := qi_example_A;
     rep := {| rrset_count := 2; rrsets := [rrset_C; rrset_D] |} |}.

(** The 12 header bytes and the question of a query, names uncompressed. *)
Definition encode_query (qi : query_info) : list Z :=
  [0; 0; 0; 0; 0; 1; 0; 0; 0; 0; 0; 0] ++ qname qi
  ++ [qtype qi / 256; qtype qi mod 256; qclass qi / 256; qclass qi mod 256].

(** Collaborators whose message cache answers every lookup with [msg_CD]. *)
Definition X_hit : collaborators :=
  {| dns_cache_lookup := fun _ _ _ _ _ _ => Some msg_CD;
     dns_cache_find_delegation := fun _ _ _ _ => None;
     send_query := fun _ _ _ _ _ _ _ _ => Some 1;
     reply_info_parse := fun _ => None;
     reply_info_answer_encode := fun _ _ _ _ _ _ _ _ => Some [1];
     qinfo_query_encode := encode_query;
     time_now := 0 |}.

(** Collaborators with empty caches. *)
Definition X_miss : collaborators :=
  {| dns_cache_lookup := fun _ _ _ _ _ _ => None;
     dns_cache_find_delegation := fun _ _ _ _ => None;
     send_query := fun _ _ _ _ _ _ _ _ => Some 1;
     reply_info_parse := fun _ => None;
     reply_info_answer_encode := fun _ _ _ _ _ _ _ _ => None;
     qinfo_query_encode := encode_query;
     time_now := 0 |}.

Definition ie_iter : iter_env :=
  {| max_dependency_depth := 10; fwd_addr := []; fwd_addrlen := 0 |}.

Definition ie_fwd : iter_env :=
  {| max_dependency_depth := 10; fwd_addr := [192; 0; 2; 53]; fwd_addrlen := 4 |}.

Definition edns0 : edns_data :=
  {| edns_present := false; ext_rcode := 0; edns_version := 0; bits := 0;
     udp_size := 512 |}.

(** A fresh top-level query for [qi], with the region outcomes [r]. *)
Definition qs_new (qi : query_info) (ie : iter_env) (r : region) : module_qstate :=
  {| qinfo := qi; query_flags := 256; query_hash := 7; edns := edns0;
     buf := []; reply := None; qregion := r;
     env := {| modinfo := ie; msg_cache := [] |};
     minfo := None; ext_state := module_state_initial;
     subreq_depth := 0; trace := [] |}.

(** The iterator state iter_new and process_request give a top-level query,
    with [c] restarts counted. *)
Definition iq_top (c : Z) : iter_qstate :=
  {| state := INIT_REQUEST_STATE; final_state_of := FINISHED_STATE;
     prepend_list := []; dp := None; current_target := None;
     num_target_queries := -1; num_current_queries := 0;
     query_restart_count := c; referral_count := 0; priming_stub := 0;
     orig_qname := None; orig_qnamelen := 0; orig_qflags := 256;
     outlist := [] |}.

Definition qi_child_DS : query_info :=
  {| qname := child_example_com; qname_len := 19; qtype := LDNS_RR_TYPE_DS;
     qclass := 1; has_cd := false |}.

(** * Names of the states *)

Definition iter_state_to_string (s : iter_state) : string :=
  match s with
  | INIT_REQUEST_STATE => "INIT REQUEST STATE"
  | INIT_REQUEST_2_STATE => "INIT REQUEST STATE (stage 2)"
  | INIT_REQUEST_3_STATE => "INIT REQUEST STATE (stage 3)"
  | QUERYTARGETS_STATE => "QUERY TARGETS STATE"
  | PRIME_RESP_STATE => "PRIME RESPONSE STATE"
  | QUERY_RESP_STATE => "QUERY RESPONSE STATE"
  | TARGET_RESP_STATE => "TARGET RESPONSE STATE"
  | FINISHED_STATE => "FINISHED RESPONSE STATE"
  end.

(** * What the handlers leave alone *)

(** The parts of the query state and of the iterator state that a run of
    the state machine does not write: it sends nothing, and the module
    state, the environment, the region, the question, the reply, the
    depth, the slot of the module, the final state, the prepend list, the
    original question and the outbound list are the ones it was given. *)
Definition handler_keeps (qs : module_qstate) (iq : iter_qstate)
    (qs' : module_qstate) (iq' : iter_qstate) : Prop :=
  sends (trace qs') = sends (trace qs) /\
  ext_state qs' = ext_state qs /\
  env qs' = env qs /\
  qregion qs' = qregion qs /\
  qinfo qs' = qinfo qs /\
  reply qs' = reply qs /\
  subreq_depth qs' = subreq_depth qs /\
  minfo qs' = minfo qs /\
  final_state_of iq' = final_state_of iq /\
  prepend_list iq' = prepend_list iq /\
  orig_qname iq' = orig_qname iq /\
  orig_qflags iq' = orig_qflags iq /\
  outlist iq' = outlist iq.

(** The turns of the driving loop that are enough for a query with [c]
    restarts counted: one for each restart left, and two. *)
Definition turns_for (K : iter_consts) (c : Z) : nat :=
  (Z.to_nat (MAX_RESTART_COUNT K + 1 - c) + 2)%nat.

(** A query eleven levels below the request it depends on. *)
Definition qs_deep : module_qstate :=
  {| qinfo := qi_example_A; query_flags := 256; query_hash := 7;
     edns := edns0; buf := []; reply := None; qregion := [];
     env := {| modinfo := ie_iter; msg_cache := [] |};
     minfo := None; ext_state := module_state_initial;
     subreq_depth := 11; trace := [] |}.

(** Collaborators with an empty message cache and one delegation point
    for every name. *)
Definition X_deleg : collaborators :=
  {| dns_cache_lookup := fun _ _ _ _ _ _ => None;
     dns_cache_find_delegation := fun _ _ _ _ => Some [[198; 41; 0; 4]];
     send_query := fun _ _ _ _ _ _ _ _ => Some 1;
     reply_info_parse := fun _ => None;
     reply_info_answer_encode := fun _ _ _ _ _ _ _ _ => None;
     qinfo_query_encode := encode_query;
     time_now := 0 |}.

(** Collaborators of a forwarder: every reply parses to an answer for
    example.com/A and every answer encodes. *)
Definition X_fwd : collaborators :=
  {| dns_cache_lookup := fun _ _ _ _ _ _ => None;
     dns_cache_find_delegation := fun _ _ _ _ => None;
     send_query := fun _ _ _ _ _ _ _ _ => Some 1;
     reply_info_parse :=
       fun _ => Some (qi_example_A, rep msg_CD, edns0);
     reply_info_answer_encode := fun _ _ _ _ _ _ udp _ => Some [udp];
     qinfo_query_encode := encode_query;
     time_now := 0 |}.

(** A forwarded query that waits for its reply, with the reply [b]
    attached. *)
Definition qs_waiting (b : list Z) : module_qstate :=
  {| qinfo := qi_example_A; query_flags := 256; query_hash := 7;
     edns := edns0; buf := []; reply := Some b; qregion := [];
     env := {| modinfo := ie_fwd; msg_cache := [] |};
     minfo := Some (set_outlist iq_zero [1]); ext_state := module_wait_reply;
     subreq_depth := 0; trace := [] |}.

(** * Properties *)

(** ** The prepend list and the record sets of the message *)

Lemma allocs_succeed_S n b r :
  allocs_succeed (S n) (b :: r) = b && allocs_succeed n r.
Proof. reflexivity. Qed.

Lemma allocs_succeed_nil n : allocs_succeed n [] = true.
Proof. unfold allocs_succeed. now rewrite firstn_nil. Qed.

Lemma prepend_copy_succeeds p : forall r,
  allocs_succeed (List.length p) r = true ->
  prepend_copy p r = (Some (map copy_of p), skipn (List.length p) r).
Proof.
  induction p as [|e p IH]; intros r Hr.
  - reflexivity.
  - destruct r as [|b r].
    + cbn [prepend_copy region_alloc].
      rewrite (IH [] (allocs_succeed_nil _)), skipn_nil. reflexivity.
    + cbn [List.length] in Hr.
      rewrite allocs_succeed_S in Hr. apply andb_true_iff in Hr as [-> Hr].
      cbn [prepend_copy region_alloc]. rewrite (IH r Hr). reflexivity.
Qed.

Lemma prepend_copy_fails p : forall r,
  allocs_succeed (List.length p) r = false ->
  exists r', prepend_copy p r = (None, r').
Proof.
  induction p as [|e p IH]; intros r Hr.
  - discriminate.
  - destruct r as [|b r].
    + now rewrite allocs_succeed_nil in Hr.
    + cbn [List.length] in Hr.
      rewrite allocs_succeed_S in Hr. cbn [prepend_copy region_alloc].
      destruct b.
      * destruct (IH r Hr) as [r' ->]. now exists r'.
      * now exists r.
Qed.

(** When every allocation succeeds the array installed is the copies of
    the prepend entries, in list order, followed by the record sets of the
    message; [rrset_count] keeps its value. *)
Lemma iter_prepend_array iq msg r :
  prepend_list iq <> [] ->
  allocs_succeed (S (List.length (prepend_list iq))) r = true ->
  iter_prepend iq msg r =
    (true,
     {| msg_qinfo := msg_qinfo msg;
        rep := {| rrset_count := rrset_count (rep msg);
                  rrsets := map copy_of (prepend_list iq)
                            ++ reply_rrsets (rep msg) |} |},
     skipn (S (List.length (prepend_list iq))) r).
Proof.
  intros Hne Hr. unfold iter_prepend.
  destruct (prepend_list iq) as [|e p] eqn:Ep; [congruence|].
  cbn [List.length Nat.eqb].
  destruct r as [|b r].
  - cbn [region_alloc negb].
    rewrite (prepend_copy_succeeds (e :: p) [] (allocs_succeed_nil _)).
    rewrite skipn_nil. reflexivity.
  - rewrite allocs_succeed_S in Hr. apply andb_true_iff in Hr as [-> Hr].
    cbn [region_alloc negb].
    rewrite (prepend_copy_succeeds (e :: p) r Hr). reflexivity.
Qed.

(** C10. When one of the allocations of the splice fails (the array, or the
    entry of one element of the prepend list), iter_prepend returns 0 and
    the message is the one it was given; the new array is installed when
    all of them have succeeded. *)
Theorem iter_prepend_alloc_failure iq msg r :
  prepend_list iq <> [] ->
  (allocs_succeed (S (List.length (prepend_list iq))) r = false ->
   exists r', iter_prepend iq msg r = (false, msg, r')) /\
  (forall ok msg' r',
     iter_prepend iq msg r = (ok, msg', r') ->
     msg' <> msg ->
     ok = true /\
     allocs_succeed (S (List.length (prepend_list iq))) r = true /\
     rrsets (rep msg') = map copy_of (prepend_list iq) ++ reply_rrsets (rep msg)).
Proof.
  intros Hne.
  assert (Hfail : allocs_succeed (S (List.length (prepend_list iq))) r = false ->
                  exists r', iter_prepend iq msg r = (false, msg, r')).
  { intros Hr. unfold iter_prepend.
    destruct (prepend_list iq) as [|e p] eqn:Ep; [congruence|].
    cbn [List.length Nat.eqb].
    destruct r as [|b r]; [now rewrite allocs_succeed_nil in Hr|].
    rewrite allocs_succeed_S in Hr. cbn [region_alloc].
    destruct b; cbn [negb].
    - destruct (prepend_copy_fails (e :: p) r Hr) as [r' ->]. now exists r'.
    - now exists r. }
  split; [exact Hfail|].
  intros ok msg' r' Hrun Hchg.
  destruct (allocs_succeed (S (List.length (prepend_list iq))) r) eqn:Hr.
  - rewrite (iter_prepend_array iq msg r Hne Hr) in Hrun.
    injection Hrun as <- <- <-. repeat split; reflexivity.
  - destruct (Hfail eq_refl) as [r'' Hrun']. rewrite Hrun' in Hrun.
    injection Hrun as _ <- _. congruence.
Qed.

(** C5. With the prepend list [A, B] and a message whose record sets are
    [C, D], iter_prepend installs the array [A, B, C, D] and leaves
    [rrset_count] at 2: read with its count, as iter_prepend itself reads
    a message, the reply holds A and B only. *)
Theorem iter_prepend_count_not_updated :
  let iq := set_prepend_list (iq_top 0) [rrset_A; rrset_B] in
  exists msg',
    iter_prepend iq msg_CD [] = (true, msg', []) /\
    rrsets (rep msg') = [copy_of rrset_A; copy_of rrset_B; rrset_C; rrset_D] /\
    rrset_count (rep msg') = 2%nat /\
    reply_rrsets (rep msg') = [copy_of rrset_A; copy_of rrset_B] /\
    reply_rrsets (rep msg') <>
      map copy_of [rrset_A; rrset_B] ++ reply_rrsets (rep msg_CD).
Proof.
  eexists. split; [reflexivity|].
  cbn. repeat split; try reflexivity. discriminate.
Qed.

Lemma iter_prepend_alloc_failure_witness :
  exists r',
    iter_prepend (set_prepend_list (iq_top 0) [rrset_A; rrset_B]) msg_CD
      [true; true; false] = (false, msg_CD, r').
Proof.
  apply (iter_prepend_alloc_failure
           (set_prepend_list (iq_top 0) [rrset_A; rrset_B]) msg_CD
           [true; true; false]).
  - discriminate.
  - reflexivity.
Defined.

(** ** The transition helper *)

Lemma next_state_value qs iq s :
  next_state qs iq s =
    (true,
     if iter_state_is_responsestate s then
       match reply qs with
       | None => record qs (LogErr "transitioning to response state sans response.")
       | Some _ => qs
       end
     else qs,
     set_state iq s).
Proof. reflexivity. Qed.

(** next_state changes nothing of the query state but the trace, where it
    adds at most the log line. *)
Lemma next_state_frame qs iq s cont qs' iq' :
  next_state qs iq s = (cont, qs', iq') ->
  cont = true /\ iq' = set_state iq s /\ buf qs' = buf qs /\
  ext_state qs' = ext_state qs /\ qregion qs' = qregion qs /\
  env qs' = env qs /\
  lookups (trace qs') = lookups (trace qs) /\
  sends (trace qs') = sends (trace qs).
Proof.
  rewrite next_state_value. intros E. injection E as <- <- <-.
  destruct (iter_state_is_responsestate s), (reply qs); cbn;
    unfold lookups, sends; rewrite ?filter_app, ?app_nil_r; cbn;
    rewrite ?app_nil_r; repeat split; reflexivity.
Qed.

(** C4 as stated fails: towards [FINISHED_STATE], with no reply attached,
    next_state logs and then makes the transition all the same: it returns
    true, the state is the target and the module state is not an error. *)
Lemma next_state_sans_response_proceeds :
  ~ (forall qs iq s,
       iter_state_is_responsestate s = true ->
       reply qs = None ->
       let '(cont, qs', iq') := next_state qs iq s in
       cont = false \/ state iq' = state iq \/ ext_state qs' = module_error).
Proof.
  intros H.
  specialize (H (qs_new qi_example_A ie_iter []) (iq_top 0) FINISHED_STATE
                eq_refl eq_refl).
  cbn in H. destruct H as [H | [H | H]]; discriminate.
Qed.

(** C4, amended. A transition to a response state without a reply is
    detected and logged as an error, and then made: next_state returns
    true, sets the state to the target and leaves the rest of the query
    state as it was. *)
Theorem next_state_sans_response_logs qs iq s :
  iter_state_is_responsestate s = true ->
  reply qs = None ->
  next_state qs iq s =
    (true,
     record qs (LogErr "transitioning to response state sans response."),
     set_state iq s) /\
  state (set_state iq s) = s /\
  ext_state (record qs (LogErr "transitioning to response state sans response."))
    = ext_state qs.
Proof.
  intros Hs Hr. rewrite next_state_value, Hs, Hr. repeat split.
Qed.

Lemma next_state_sans_response_logs_witness :
  next_state (qs_new qi_example_A ie_iter []) (iq_top 0) FINISHED_STATE =
    (true,
     record (qs_new qi_example_A ie_iter [])
       (LogErr "transitioning to response state sans response."),
     set_state (iq_top 0) FINISHED_STATE).
Proof.
  exact (proj1 (next_state_sans_response_logs
                  (qs_new qi_example_A ie_iter []) (iq_top 0) FINISHED_STATE
                  eq_refl eq_refl)).
Defined.

(** ** The error response *)

Lemma nth_poke_same i f b :
  (i < List.length b)%nat -> nth i (poke i f b) 0 = f (nth i b 0).
Proof.
  intros Hi. unfold poke.
  destruct (nth_error b i) as [x|] eqn:Ex.
  - rewrite (nth_error_nth b i 0 Ex).
    rewrite app_nth2; rewrite length_firstn, Nat.min_l by lia; [|lia].
    now rewrite Nat.sub_diag.
  - apply nth_error_None in Ex. lia.
Qed.

Lemma nth_poke_other i j f b :
  i <> j -> nth j (poke i f b) 0 = nth j b 0.
Proof.
  intros Hij. unfold poke.
  destruct (nth_error b i) as [x|] eqn:Ex; [|reflexivity].
  assert (Hi : (i < List.length b)%nat) by (apply nth_error_Some; congruence).
  rewrite <- (firstn_skipn i b) at 3.
  destruct (Nat.lt_ge_cases j i) as [Hlt | Hge].
  - rewrite !app_nth1 by (rewrite length_firstn; lia). reflexivity.
  - rewrite !app_nth2 by (rewrite length_firstn; lia).
    rewrite length_firstn, Nat.min_l by lia.
    destruct (j - i)%nat as [|m] eqn:Em; [lia|].
    cbn [nth]. rewrite <- (firstn_skipn 1 (skipn i b)), skipn_skipn.
    rewrite app_nth2; rewrite length_firstn, length_skipn, Nat.min_l by lia;
      [|lia].
    replace (1 + i)%nat with (S i) by lia. f_equal. lia.
Qed.

Lemma length_poke i f b : List.length (poke i f b) = List.length b.
Proof.
  unfold poke. destruct (nth_error b i) as [x|] eqn:Ex; [|reflexivity].
  assert (Hi : (i < List.length b)%nat) by (apply nth_error_Some; congruence).
  rewrite length_app, length_firstn. cbn [List.length].
  rewrite length_skipn. lia.
Qed.

Lemma rcode_nibble_servfail x :
  Z.land (Z.lor (Z.land x (Z.lnot LDNS_RCODE_MASK)) LDNS_RCODE_SERVFAIL mod 256)
    LDNS_RCODE_MASK = LDNS_RCODE_SERVFAIL.
Proof.
  unfold LDNS_RCODE_MASK, LDNS_RCODE_SERVFAIL.
  change 15 with (Z.ones 4) at 2. rewrite Z.land_ones by lia.
  rewrite Z.mod_mod_divide by (now exists 16).
  rewrite <- Z.land_ones by lia.
  rewrite Z.land_lor_distr_l, <- Z.land_assoc.
  change (Z.land (Z.lnot 15) (Z.ones 4)) with 0.
  now rewrite Z.land_0_r.
Qed.

Lemma qr_bit_set x : Z.testbit (Z.lor x LDNS_QR_MASK mod 256) 7 = true.
Proof.
  change 256 with (2 ^ 8). rewrite Z.mod_pow2_bits_low by lia.
  rewrite Z.lor_spec. apply orb_true_r.
Qed.

(** When the encoded query has its header, the buffer error_response
    leaves for SERVFAIL carries rcode 2 and the QR flag. *)
Lemma error_packet_servfail X qi :
  (4 <= List.length (qinfo_query_encode X qi))%nat ->
  LDNS_RCODE_WIRE (error_packet X qi LDNS_RCODE_SERVFAIL) = LDNS_RCODE_SERVFAIL /\
  LDNS_QR_WIRE (error_packet X qi LDNS_RCODE_SERVFAIL) = true.
Proof.
  intros Hlen. unfold error_packet, LDNS_RCODE_WIRE, LDNS_QR_WIRE,
    LDNS_QR_SET, LDNS_RCODE_SET. split.
  - rewrite nth_poke_other by lia. rewrite nth_poke_same by lia.
    apply rcode_nibble_servfail.
  - rewrite nth_poke_same by (rewrite length_poke; lia). apply qr_bit_set.
Qed.

Lemma error_response_value X qs iq rcode :
  error_response X qs iq rcode =
    next_state (set_buf qs (error_packet X (qinfo qs) rcode)) iq
      (final_state_of iq).
Proof. reflexivity. Qed.

(** error_response writes the error packet, moves to the final state of
    the query and makes no lookup and sends nothing. *)
Lemma error_response_frame X qs iq rcode cont qs' iq' :
  error_response X qs iq rcode = (cont, qs', iq') ->
  cont = true /\
  buf qs' = error_packet X (qinfo qs) rcode /\
  iq' = set_state iq (final_state_of iq) /\
  ext_state qs' = ext_state qs /\
  lookups (trace qs') = lookups (trace qs) /\
  sends (trace qs') = sends (trace qs).
Proof.
  rewrite error_response_value. intros E.
  apply next_state_frame in E as (-> & -> & Hb & He & _ & _ & Hl & Hs).
  repeat split; assumption.
Qed.

(** ** The InitRequest handler *)

(** The handler past its two limits. *)
Lemma processInitRequest_within_limits K X qs iq ie :
  query_restart_count iq <= MAX_RESTART_COUNT K ->
  module_subreq_depth qs <= max_dependency_depth ie ->
  processInitRequest K X qs iq ie =
    match cache_lookup_of X qs with
    | Some _ =>
        next_state (record qs (cache_lookup_call qs))
          (set_query_restart_count iq (int_wrap (query_restart_count iq + 1)))
          INIT_REQUEST_STATE
    | None =>
        let qs2 := record (record qs (cache_lookup_call qs))
                     (delegation_lookup_call qs) in
        let iq1 := set_dp iq (delegation_lookup_of X qs) in
        match delegation_lookup_of X qs with
        | None => (false, qs2, iq1)
        | Some _ => next_state qs2 iq1 INIT_REQUEST_2_STATE
        end
    end.
Proof.
  intros Hc Hd. unfold processInitRequest.
  destruct (Z.ltb_spec (MAX_RESTART_COUNT K) (query_restart_count iq)); [lia|].
  destruct (Z.ltb_spec (max_dependency_depth ie) (module_subreq_depth qs));
    [lia|].
  unfold cache_lookup_of, cache_lookup_call, delegation_lookup_of,
    delegation_lookup_call.
  destruct (dns_cache_lookup X _ _ _ _ _ _); [reflexivity|].
  destruct (delegation_name (qinfo qs)) as [delname delnamelen].
  reflexivity.
Qed.

(** C3 as stated fails: with the counter at the maximum (8 restarts of 8)
    and empty caches the handler answers nothing and makes both lookups. *)
Lemma restart_count_at_maximum_looks_up :
  ~ (forall K X qs iq ie,
       query_restart_count iq = MAX_RESTART_COUNT K ->
       let '(_, qs', iq') := processInitRequest K X qs iq ie in
       buf qs' = error_packet X (qinfo qs) LDNS_RCODE_SERVFAIL /\
       state iq' = final_state_of iq /\
       lookups (trace qs') = lookups (trace qs)).
Proof.
  intros H.
  specialize (H K0 X_miss (qs_new qi_example_A ie_iter []) (iq_top 8) ie_iter
                eq_refl).
  cbn in H. destruct H as (_ & _ & H). discriminate.
Qed.

(** C3, amended. With a restart counter above the maximum the handler
    does nothing but error_response with SERVFAIL: the buffer holds the
    error packet (rcode 2 and the QR flag in its header, when the encoded
    query has one), the state is the final state of the query, and the
    trace gains no cache lookup, no delegation lookup and no upstream
    query. For a query whose final state is [FINISHED_STATE] the driving
    loop ends there on its second turn. *)
Theorem restart_count_exceeded_servfail K X qs iq ie :
  MAX_RESTART_COUNT K < query_restart_count iq ->
  processInitRequest K X qs iq ie =
    error_response X qs iq LDNS_RCODE_SERVFAIL /\
  (forall cont qs' iq',
     processInitRequest K X qs iq ie = (cont, qs', iq') ->
     buf qs' = error_packet X (qinfo qs) LDNS_RCODE_SERVFAIL /\
     ((4 <= List.length (qinfo_query_encode X (qinfo qs)))%nat ->
      LDNS_RCODE_WIRE (buf qs') = LDNS_RCODE_SERVFAIL /\
      LDNS_QR_WIRE (buf qs') = true) /\
     state iq' = final_state_of iq /\
     lookups (trace qs') = lookups (trace qs) /\
     sends (trace qs') = sends (trace qs)) /\
  (forall fuel,
     state iq = INIT_REQUEST_STATE ->
     final_state_of iq = FINISHED_STATE ->
     exists qs',
       iter_handle K X (S (S fuel)) qs iq ie =
         Ok (qs', set_state iq FINISHED_STATE) /\
       buf qs' = error_packet X (qinfo qs) LDNS_RCODE_SERVFAIL /\
       ((4 <= List.length (qinfo_query_encode X (qinfo qs)))%nat ->
        LDNS_RCODE_WIRE (buf qs') = LDNS_RCODE_SERVFAIL /\
        LDNS_QR_WIRE (buf qs') = true) /\
       lookups (trace qs') = lookups (trace qs)).
Proof.
  intros Hc.
  assert (E : processInitRequest K X qs iq ie =
              error_response X qs iq LDNS_RCODE_SERVFAIL).
  { unfold processInitRequest.
    destruct (Z.ltb_spec (MAX_RESTART_COUNT K) (query_restart_count iq));
      [reflexivity | lia]. }
  split; [exact E|]. split.
  - intros cont qs' iq' Hrun. rewrite E in Hrun.
    apply error_response_frame in Hrun as (_ & Hb & -> & _ & Hl & Hs).
    split; [exact Hb|]. split.
    { intros Hlen. rewrite Hb. now apply error_packet_servfail. }
    repeat split; assumption.
  - intros fuel Hst Hfin.
    destruct (error_response X qs iq LDNS_RCODE_SERVFAIL)
      as [[cont qs1] iq1] eqn:Her.
    pose proof (error_response_frame _ _ _ _ _ _ _ Her)
      as (-> & Hb & -> & _ & Hl & _).
    exists (record qs1 (LogWarn "iterator: invalid state")).
    cbn [iter_handle]. rewrite Hst, E. cbn. rewrite Hfin. cbn.
    split; [reflexivity|]. split; [exact Hb|]. split.
    { intros Hlen. rewrite Hb. now apply error_packet_servfail. }
    unfold lookups in *. rewrite filter_app, Hl. cbn. apply app_nil_r.
Qed.

Lemma restart_count_exceeded_servfail_witness :
  exists cont qs' iq',
    processInitRequest K0 X_hit (qs_new qi_example_A ie_iter []) (iq_top 9)
      ie_iter = (cont, qs', iq') /\
    LDNS_RCODE_WIRE (buf qs') = 2 /\
    LDNS_QR_WIRE (buf qs') = true /\
    state iq' = FINISHED_STATE /\
    lookups (trace qs') = [].
Proof.
  assert (Hc : MAX_RESTART_COUNT K0 < query_restart_count (iq_top 9))
    by (cbn; lia).
  destruct (restart_count_exceeded_servfail K0 X_hit
              (qs_new qi_example_A ie_iter []) (iq_top 9) ie_iter Hc)
    as (_ & H & _).
  eexists _, _, _. split; [vm_compute; reflexivity|].
  destruct (H _ _ _ eq_refl) as (_ & Hh & Hs & Hl & _).
  destruct Hh as (Hr & Hq); [cbn; lia|].
  repeat split; assumption.
Defined.

(** C2. When the cache lookup returns a message (so also a CNAME or DNAME
    answer that does not satisfy the query type), the handler adds one to
    [query_restart_count], sets the state to [INIT_REQUEST_STATE] and
    returns true, which makes the driving loop run the handler again at
    once. The counter is an int within the limit, below [INT_MAX]. *)
Theorem cache_hit_restarts K X qs iq ie msg :
  - 2 ^ 31 <= query_restart_count iq ->
  MAX_RESTART_COUNT K < INT_MAX ->
  query_restart_count iq <= MAX_RESTART_COUNT K ->
  module_subreq_depth qs <= max_dependency_depth ie ->
  cache_lookup_of X qs = Some msg ->
  exists qs' iq',
    processInitRequest K X qs iq ie = (true, qs', iq') /\
    query_restart_count iq' = query_restart_count iq + 1 /\
    state iq' = INIT_REQUEST_STATE /\
    iq' = set_state (set_query_restart_count iq (query_restart_count iq + 1))
            INIT_REQUEST_STATE /\
    qs' = record qs (cache_lookup_call qs) /\
    (forall fuel,
       state iq = INIT_REQUEST_STATE ->
       iter_handle K X (S fuel) qs iq ie = iter_handle K X fuel qs' iq' ie).
Proof.
  intros Hlo Hmax Hc Hd Hhit.
  assert (Hw : int_wrap (query_restart_count iq + 1) = query_restart_count iq + 1).
  { unfold int_wrap, INT_MAX in *. rewrite Z.mod_small; lia. }
  pose proof (processInitRequest_within_limits K X qs iq ie Hc Hd) as E.
  rewrite Hhit, next_state_value, Hw in E. cbn [iter_state_is_responsestate] in E.
  eexists _, _. split; [exact E|]. repeat split.
  intros fuel Hst. cbn [iter_handle]. rewrite Hst, E. reflexivity.
Qed.

Lemma cache_hit_restarts_witness :
  exists qs' iq',
    processInitRequest K0 X_hit (qs_new qi_example_A ie_iter []) (iq_top 3)
      ie_iter = (true, qs', iq') /\
    query_restart_count iq' = 4 /\ state iq' = INIT_REQUEST_STATE.
Proof.
  destruct (cache_hit_restarts K0 X_hit (qs_new qi_example_A ie_iter [])
              (iq_top 3) ie_iter msg_CD)
    as (qs' & iq' & E & Hc & Hs & _); cbn; try lia; try reflexivity.
  exists qs', iq'. repeat split; assumption.
Defined.

(** C1. A top-level query for example.com/A whose cache lookup returns an
    answer: the handler encodes nothing and restarts the query (counter 1,
    state [INIT_REQUEST_STATE]); run by process_request, the query is
    restarted until the counter passes the maximum, then ends in
    [FINISHED_STATE] with SERVFAIL in the buffer. *)
Theorem cached_answer_restarts :
  let qs := qs_new qi_example_A ie_iter [] in
  cache_lookup_of X_hit qs = Some msg_CD /\
  (exists qs' iq',
     processInitRequest K0 X_hit qs (iq_top 0) ie_iter = (true, qs', iq') /\
     buf qs' = [] /\
     state iq' = INIT_REQUEST_STATE /\
     query_restart_count iq' = 1) /\
  (exists qs' iq',
     process_request K0 X_hit 11 qs (iq_top 0) ie_iter = Ok (qs', iq') /\
     state iq' = FINISHED_STATE /\
     query_restart_count iq' = 9 /\
     buf qs' = error_packet X_hit qi_example_A LDNS_RCODE_SERVFAIL /\
     LDNS_RCODE_WIRE (buf qs') = LDNS_RCODE_SERVFAIL).
Proof.
  cbn zeta. split; [reflexivity|]. split.
  - eexists _, _. split; [vm_compute; reflexivity|]. repeat split.
  - eexists _, _. split; [vm_compute; reflexivity|]. repeat split.
Qed.

(** C8. After a cache miss, when the delegation lookup returns nothing,
    the handler returns false: the state stays what it was, no upstream
    query is sent, and the driving loop stops. *)
Theorem no_delegation_suspends K X qs iq ie :
  query_restart_count iq <= MAX_RESTART_COUNT K ->
  module_subreq_depth qs <= max_dependency_depth ie ->
  cache_lookup_of X qs = None ->
  delegation_lookup_of X qs = None ->
  exists qs' iq',
    processInitRequest K X qs iq ie = (false, qs', iq') /\
    state iq' = state iq /\
    dp iq' = None /\
    trace qs' = trace qs ++ [cache_lookup_call qs; delegation_lookup_call qs] /\
    buf qs' = buf qs /\
    (forall fuel,
       state iq = INIT_REQUEST_STATE ->
       iter_handle K X (S fuel) qs iq ie = Ok (qs', iq') /\
       state iq' <> INIT_REQUEST_2_STATE).
Proof.
  intros Hc Hd Hmiss Hdel.
  pose proof (processInitRequest_within_limits K X qs iq ie Hc Hd) as E.
  rewrite Hmiss, Hdel in E. cbn zeta in E.
  eexists _, _. split; [exact E|]. repeat split.
  - cbn. now rewrite <- app_assoc.
  - cbn [iter_handle]. now rewrite H, E.
  - cbn. rewrite H. discriminate.
Qed.

Lemma no_delegation_suspends_witness :
  exists qs' iq',
    processInitRequest K0 X_miss (qs_new qi_example_A ie_iter []) (iq_top 0)
      ie_iter = (false, qs', iq') /\
    state iq' = INIT_REQUEST_STATE.
Proof.
  destruct (no_delegation_suspends K0 X_miss (qs_new qi_example_A ie_iter [])
              (iq_top 0) ie_iter)
    as (qs' & iq' & E & Hs & _); cbn; try lia; try reflexivity.
  exists qs', iq'. split; assumption.
Defined.

(** ** The name of the delegation lookup *)

Lemma length_dname_wire_pos labels : (0 < List.length (dname_wire labels))%nat.
Proof. destruct labels; cbn; lia. Qed.

(** For a DS query the lookup name is the name of the parent: the labels
    but the first; the root stays the root. *)
Lemma delegation_name_ds qi labels :
  wire_qname qi labels ->
  qtype qi = LDNS_RR_TYPE_DS ->
  delegation_name qi =
    (dname_wire (tl labels), Z.of_nat (List.length (dname_wire (tl labels)))).
Proof.
  intros (Hn & Hl & Hlen & Hmax) Ht. unfold delegation_name.
  rewrite Ht, Z.eqb_refl, Hn. cbn [andb].
  destruct labels as [|l rest]; cbn [dname_wire nth tl].
  - cbn. now rewrite Hlen, Hn.
  - inversion Hl as [|? ? Hne _]; subst.
    destruct (Z.eqb_spec (Z.of_nat (List.length l)) 0) as [E|_].
    { destruct l; [congruence | cbn in E; lia]. }
    cbn [negb].
    replace (Z.to_nat (Z.of_nat (List.length l) + 1)) with (S (List.length l))
      by lia.
    cbn [skipn]. rewrite skipn_app, skipn_all, Nat.sub_diag. cbn [skipn app].
    rewrite Hlen, Hn in *. cbn [dname_wire List.length] in *.
    rewrite length_app in *. unfold size_wrap.
    change (2 ^ 64) with 18446744073709551616.
    rewrite Z.mod_small by lia. apply (f_equal (pair _)). lia.
Qed.

(** C7. For a DS query that misses the cache, the one delegation lookup of
    the handler is made on the query name without its leftmost label, a
    name other than the query name; for a DS query at the root the lookup
    is made on the root. *)
Theorem ds_delegation_lookup_on_parent K X qs iq ie labels :
  wire_qname (qinfo qs) labels ->
  qtype (qinfo qs) = LDNS_RR_TYPE_DS ->
  query_restart_count iq <= MAX_RESTART_COUNT K ->
  module_subreq_depth qs <= max_dependency_depth ie ->
  cache_lookup_of X qs = None ->
  let parent := dname_wire (tl labels) in
  (forall cont qs' iq',
     processInitRequest K X qs iq ie = (cont, qs', iq') ->
     trace qs' =
       trace qs ++
       [cache_lookup_call qs;
        FindDelegation parent (Z.of_nat (List.length parent))
          (qclass (qinfo qs))] /\
     dp iq' =
       dns_cache_find_delegation X (env qs) parent
         (Z.of_nat (List.length parent)) (qclass (qinfo qs))) /\
  (labels <> [] -> parent <> qname (qinfo qs)) /\
  (labels = [] -> parent = qname (qinfo qs)).
Proof.
  intros Hw Ht Hc Hd Hmiss parent.
  pose proof (delegation_name_ds _ _ Hw Ht) as Hdn.
  pose proof (processInitRequest_within_limits K X qs iq ie Hc Hd) as E.
  rewrite Hmiss in E. cbn zeta in E.
  unfold delegation_lookup_of, delegation_lookup_call in E.
  rewrite Hdn in E. cbn [fst snd] in E. fold parent in E.
  split; [|split].
  - intros cont qs' iq' Hrun. rewrite E in Hrun.
    destruct (dns_cache_find_delegation X (env qs) parent _ _) eqn:Hdp.
    + rewrite next_state_value in Hrun. cbn in Hrun.
      injection Hrun as <- <- <-. cbn. now rewrite <- app_assoc.
    + injection Hrun as <- <- <-. cbn. now rewrite <- app_assoc.
  - intros Hne Heq. destruct Hw as (Hn & _). rewrite Hn in Heq.
    destruct labels as [|l rest]; [congruence|].
    apply (f_equal (@List.length Z)) in Heq. subst parent.
    cbn [tl dname_wire List.length] in Heq. rewrite length_app in Heq. lia.
  - intros ->. destruct Hw as (Hn & _). now rewrite Hn.
Qed.

Lemma ds_delegation_lookup_on_parent_witness :
  exists cont qs' iq',
    processInitRequest K0 X_miss (qs_new qi_child_DS ie_iter []) (iq_top 0)
      ie_iter = (cont, qs', iq') /\
    trace qs' =
      [CacheLookup child_example_com 19 LDNS_RR_TYPE_DS 1 false;
       FindDelegation example_com 13 1].
Proof.
  assert (Hw : wire_qname (qinfo (qs_new qi_child_DS ie_iter []))
                 [[99; 104; 105; 108; 100];
                  [101; 120; 97; 109; 112; 108; 101];
                  [99; 111; 109]]).
  { repeat split; cbn; try lia. repeat constructor; discriminate. }
  assert (Hc : query_restart_count (iq_top 0) <= MAX_RESTART_COUNT K0)
    by (cbn; lia).
  assert (Hd : module_subreq_depth (qs_new qi_child_DS ie_iter []) <=
               max_dependency_depth ie_iter) by (cbn; lia).
  destruct (ds_delegation_lookup_on_parent K0 X_miss
              (qs_new qi_child_DS ie_iter []) (iq_top 0) ie_iter _ Hw
              eq_refl Hc Hd eq_refl) as (H & _).
  eexists _, _, _. split; [vm_compute; reflexivity|].
  exact (proj1 (H _ _ _ eq_refl)).
Defined.

(** ** Failures of the response assembly *)

(** C9. When the splice of the prepend list fails, or the encoder does,
    iter_encode_respmsg ends as error_response with SERVFAIL does: the
    buffer holds the error packet, with rcode 2 (SERVFAIL) and the QR flag
    in its header when the encoded query has one, the state is the final
    state of the query, and the module state is not touched. *)
Theorem encode_failure_servfail K X qs iq msg ok msg1 r1 :
  splice qs iq msg = (ok, msg1, r1) ->
  ok = false \/ answer_encode_of K X qs iq msg1 = None ->
  exists qs',
    iter_encode_respmsg K X qs iq msg =
      (qs', set_state iq (final_state_of iq), msg1) /\
    error_response X (set_qregion qs r1) iq LDNS_RCODE_SERVFAIL =
      (true, qs', set_state iq (final_state_of iq)) /\
    buf qs' = error_packet X (qinfo qs) LDNS_RCODE_SERVFAIL /\
    ((4 <= List.length (qinfo_query_encode X (qinfo qs)))%nat ->
     LDNS_RCODE_WIRE (buf qs') = LDNS_RCODE_SERVFAIL /\
     LDNS_QR_WIRE (buf qs') = true) /\
    state (set_state iq (final_state_of iq)) = final_state_of iq /\
    ext_state qs' = ext_state qs.
Proof.
  intros Hsp Hfail.
  destruct (error_response X (set_qregion qs r1) iq LDNS_RCODE_SERVFAIL)
    as [[cont qs'] iq'] eqn:Her.
  pose proof (error_response_frame _ _ _ _ _ _ _ Her)
    as (-> & Hb & -> & He & _ & _).
  exists qs'. split.
  - unfold iter_encode_respmsg. rewrite Hsp.
    destruct ok; cbn [negb].
    + destruct Hfail as [Hf | Hf]; [discriminate|].
      unfold answer_encode_of in Hf. rewrite Hf, Her. reflexivity.
    + rewrite Her. reflexivity.
  - split; [reflexivity|]. split; [exact Hb|]. split.
    { intros Hlen. cbn [qinfo set_qregion] in Hb. rewrite Hb.
      now apply error_packet_servfail. }
    split; [reflexivity | exact He].
Qed.

Lemma encode_failure_servfail_witness :
  exists qs',
    iter_encode_respmsg K0 X_miss (qs_new qi_example_A ie_iter [])
      (set_prepend_list (iq_top 0) [rrset_A; rrset_B]) msg_CD =
      (qs', set_state (set_prepend_list (iq_top 0) [rrset_A; rrset_B])
              FINISHED_STATE,
       set_rrsets msg_CD [copy_of rrset_A; copy_of rrset_B; rrset_C; rrset_D]) /\
    buf qs' = error_packet X_miss qi_example_A LDNS_RCODE_SERVFAIL /\
    LDNS_RCODE_WIRE (buf qs') = 2 /\
    LDNS_QR_WIRE (buf qs') = true.
Proof.
  destruct (encode_failure_servfail K0 X_miss (qs_new qi_example_A ie_iter [])
              (set_prepend_list (iq_top 0) [rrset_A; rrset_B]) msg_CD true
              (set_rrsets msg_CD
                 [copy_of rrset_A; copy_of rrset_B; rrset_C; rrset_D]) [])
    as (qs' & E & _ & Hb & Hh & _).
  - reflexivity.
  - right. reflexivity.
  - exists qs'. split; [exact E|]. split; [exact Hb|].
    apply Hh. cbn. lia.
Defined.

(** A failed splice, with the second allocation refused. *)
Example splice_failure_servfail :
  let qs := qs_new qi_example_A ie_iter [true; false] in
  let iq := set_prepend_list (iq_top 0) [rrset_A; rrset_B] in
  let '(qs', iq', msg') := iter_encode_respmsg K0 X_hit qs iq msg_CD in
  LDNS_RCODE_WIRE (buf qs') = LDNS_RCODE_SERVFAIL /\
  state iq' = FINISHED_STATE /\ msg' = msg_CD.
Proof. cbn. repeat split. Qed.

(** ** Forwarding *)

Lemma perform_forward_new K X qs ob :
  exists qs',
    perform_forward K X qs module_event_new ob = Ok qs' /\
    if fst (region_alloc (qregion qs)) then
      trace qs' = trace qs ++ [forward_query K qs] /\
      ext_state qs' =
        match forward_send K X qs with
        | Some _ => module_wait_reply
        | None => module_error
        end
    else trace qs' = trace qs /\ ext_state qs' = module_error.
Proof.
  unfold perform_forward, fwd_new, forward_send, forward_query.
  destruct (region_alloc (qregion qs)) as [[|] r1]; cbn [fst negb].
  - destruct (has_cd (qinfo qs)); cbn [Z.lor];
      destruct (send_query X _ _ _ _ _ _ _ _);
      eexists; (split; [reflexivity|]); split; reflexivity.
  - eexists. split; [reflexivity|]. split; reflexivity.
Qed.

Lemma iter_handlereply_outcome K X qs ok qs' :
  iter_handlereply K X qs = Ok (ok, qs') ->
  sends (trace qs') = sends (trace qs) /\
  if ok then
    ext_state qs' = module_finished /\
    exists rq rm,
      trace qs' = trace qs ++ [CacheStore rq (query_hash qs) rm] /\
      msg_cache (env qs') = (rq, query_hash qs, rm) :: msg_cache (env qs)
  else
    ext_state qs' = ext_state qs /\ trace qs' = trace qs /\
    msg_cache (env qs') = msg_cache (env qs).
Proof.
  unfold iter_handlereply.
  destruct (reply qs) as [b|]; [|discriminate].
  destruct (reply_info_parse X b) as [[[rq rm] re]|].
  - destruct (reply_info_answer_encode X _ _ _ _ _ _ _ _) as [bytes|];
      intros E; injection E as <- <-.
    + split; [unfold sends; cbn; rewrite filter_app; cbn; apply app_nil_r|].
      split; [reflexivity|]. exists rq, rm. split; reflexivity.
    + repeat split.
  - intros E; injection E as <- <-. repeat split.
Qed.

(** C6 as stated fails: when the region cannot allocate the state of the
    query, a new-query event in forwarding mode sends no upstream query. *)
Lemma forward_new_without_memory_sends_nothing :
  ~ (forall K X fuel qs ob,
       fwd_addrlen (modinfo (env qs)) <> 0 ->
       exists qs',
         iter_operate K X fuel qs module_event_new ob = Ok qs' /\
         List.length (sends (trace qs')) =
           S (List.length (sends (trace qs)))).
Proof.
  intros H.
  destruct (H K0 X_hit 0%nat (qs_new qi_example_A ie_fwd [false]) None)
    as (qs' & E & Hl); [discriminate|].
  vm_compute in E. injection E as <-. discriminate Hl.
Qed.

(** The forwarder's call of the encoder for a parsed reply: for the UDP
    size of the client, with the advertised EDNS record. *)
Lemma forward_reply_exact K X qs o b :
  reply qs = Some b ->
  perform_forward K X qs module_event_reply (Some o) =
    match reply_info_parse X b with
    | None => Ok (set_ext_state qs module_error)
    | Some (rq, rm, _) =>
        match reply_info_answer_encode X rq rm 0 (query_flags qs) 0 0
                (udp_size (edns qs)) (advertised_edns K qs) with
        | None =>
            Ok (set_ext_state (set_edns qs (advertised_edns K qs))
                  module_error)
        | Some bytes =>
            Ok (set_ext_state
                  (record
                     (set_env
                        (set_buf (set_edns qs (advertised_edns K qs)) bytes)
                        (dns_cache_store_msg (env qs) rq (query_hash qs) rm))
                     (CacheStore rq (query_hash qs) rm))
                  module_finished)
        end
    end.
Proof.
  intros Hrep. unfold perform_forward, iter_handlereply. rewrite Hrep.
  destruct (reply_info_parse X b) as [[[rq rm] re]|]; [|reflexivity].
  destruct (reply_info_answer_encode X _ _ _ _ _ _ _ _); reflexivity.
Qed.

(** C6, amended. With a forward address configured iter_operate is
    perform_forward, whatever the event and the fuel of the state machine.
    A new-query event whose state allocation succeeds makes one call of
    send_query, for the question of the client, with the CD flag iff the
    client set it and DNSSEC asked for, to the forward address, and waits
    for the reply when the query was sent (module error when it was not);
    when the allocation fails nothing is sent and the module state is the
    error state. Every later event sends nothing and ends the query. A
    serviced reply that parses and encodes puts the encoding into the
    buffer, stores the parsed reply into the cache under the hash of the
    query and finishes the module, and the module is finished in no other
    case: an unserviced event, a timeout, a transport error, a reply that
    does not parse or does not encode each give the error state and store
    nothing. *)
Theorem forward_mode_bypasses_iterator K X qs :
  fwd_addrlen (modinfo (env qs)) <> 0 ->
  (forall fuel event ob,
     iter_operate K X fuel qs event ob = perform_forward K X qs event ob) /\
  (forall fuel ob,
     exists qs',
       iter_operate K X fuel qs module_event_new ob = Ok qs' /\
       if fst (region_alloc (qregion qs)) then
         trace qs' = trace qs ++ [forward_query K qs] /\
         ext_state qs' =
           match forward_send K X qs with
           | Some _ => module_wait_reply
           | None => module_error
           end
       else trace qs' = trace qs /\ ext_state qs' = module_error) /\
  (forall fuel event ob qs',
     event <> module_event_new ->
     iter_operate K X fuel qs event ob = Ok qs' ->
     sends (trace qs') = sends (trace qs) /\
     ((ext_state qs' = module_finished /\ event = module_event_reply /\
       exists rq rm,
         trace qs' = trace qs ++ [CacheStore rq (query_hash qs) rm] /\
         msg_cache (env qs') = (rq, query_hash qs, rm) :: msg_cache (env qs))
      \/
      (ext_state qs' = module_error /\
       msg_cache (env qs') = msg_cache (env qs)))) /\
  (forall fuel event ob,
     event <> module_event_new ->
     (event = module_event_reply -> ob <> None -> reply qs <> None) ->
     exists qs', iter_operate K X fuel qs event ob = Ok qs') /\
  (forall fuel o b rq rm re bytes,
     reply qs = Some b ->
     reply_info_parse X b = Some (rq, rm, re) ->
     reply_info_answer_encode X rq rm 0 (query_flags qs) 0 0
       (udp_size (edns qs)) (advertised_edns K qs) = Some bytes ->
     exists qs',
       iter_operate K X fuel qs module_event_reply (Some o) = Ok qs' /\
       ext_state qs' = module_finished /\
       buf qs' = bytes /\
       trace qs' = trace qs ++ [CacheStore rq (query_hash qs) rm] /\
       msg_cache (env qs') = (rq, query_hash qs, rm) :: msg_cache (env qs)) /\
  (forall fuel event ob qs',
     event <> module_event_new ->
     iter_operate K X fuel qs event ob = Ok qs' ->
     ext_state qs' = module_finished ->
     event = module_event_reply /\
     exists o b rq rm re bytes,
       ob = Some o /\
       reply qs = Some b /\
       reply_info_parse X b = Some (rq, rm, re) /\
       reply_info_answer_encode X rq rm 0 (query_flags qs) 0 0
         (udp_size (edns qs)) (advertised_edns K qs) = Some bytes /\
       buf qs' = bytes /\
       msg_cache (env qs') = (rq, query_hash qs, rm) :: msg_cache (env qs)) /\
  (forall fuel event ob,
     event <> module_event_new ->
     ob = None \/ event = module_event_timeout \/ event = module_event_error ->
     iter_operate K X fuel qs event ob = Ok (set_ext_state qs module_error)) /\
  (forall fuel o b,
     reply qs = Some b ->
     (reply_info_parse X b = None ->
      iter_operate K X fuel qs module_event_reply (Some o) =
        Ok (set_ext_state qs module_error)) /\
     (forall rq rm re,
        reply_info_parse X b = Some (rq, rm, re) ->
        reply_info_answer_encode X rq rm 0 (query_flags qs) 0 0
          (udp_size (edns qs)) (advertised_edns K qs) = None ->
        iter_operate K X fuel qs module_event_reply (Some o) =
          Ok (set_ext_state (set_edns qs (advertised_edns K qs))
                module_error))).
Proof.
  intros Hfwd.
  assert (Hby : forall fuel event ob,
            iter_operate K X fuel qs event ob = perform_forward K X qs event ob).
  { intros fuel event ob. unfold iter_operate.
    destruct (Z.eqb_spec (fwd_addrlen (modinfo (env qs))) 0); [contradiction|].
    reflexivity. }
  split; [exact Hby|]. split; [|split; [|split; [|split; [|split; [|split]]]]].
  - intros fuel ob. rewrite Hby. apply perform_forward_new.
  - intros fuel event ob qs' Hev. rewrite Hby. unfold perform_forward.
    destruct event; [contradiction| | | |];
      (destruct ob as [o|];
       [|intros E; injection E as <-; split; [reflexivity|right; split; reflexivity]]).
    + destruct (iter_handlereply K X qs) as [[ok qs1]| |] eqn:Eh;
        cbn [bind]; [|discriminate|discriminate].
      intros E. injection E as <-.
      pose proof (iter_handlereply_outcome K X qs ok qs1 Eh) as (Hs & Ho).
      destruct ok.
      * destruct Ho as (He & rq & rm & Ht & Hm).
        split; [exact Hs|]. left. split; [exact He|]. split; [reflexivity|].
        exists rq, rm. split; assumption.
      * destruct Ho as (_ & Ht & Hm). cbn. rewrite Ht.
        split; [reflexivity|]. right. split; [reflexivity|exact Hm].
    + intros E; injection E as <-. split; [reflexivity|right; split; reflexivity].
    + intros E; injection E as <-. split; [reflexivity|right; split; reflexivity].
    + intros E; injection E as <-. split.
      * unfold sends. cbn. rewrite filter_app. cbn. apply app_nil_r.
      * right. split; reflexivity.
  - intros fuel event ob Hev Hrep. rewrite Hby. unfold perform_forward.
    destruct event; [contradiction| | | |];
      (destruct ob as [o|]; [|eexists; reflexivity]); try (eexists; reflexivity).
    unfold iter_handlereply.
    destruct (reply qs) as [b|]; [|exfalso; now apply Hrep].
    destruct (reply_info_parse X b) as [[[rq rm] re]|]; [|eexists; reflexivity].
    destruct (reply_info_answer_encode X _ _ _ _ _ _ _ _);
      eexists; reflexivity.
  - intros fuel o b rq rm re bytes Hrep Hp He.
    rewrite Hby, (forward_reply_exact K X qs o b Hrep), Hp, He.
    eexists. split; [reflexivity|]. repeat split.
  - intros fuel event ob qs' Hev. rewrite Hby.
    destruct event; [contradiction| | | |];
      try (unfold perform_forward; destruct ob;
           intros E; injection E as <-; discriminate).
    destruct ob as [o|];
      [|unfold perform_forward; intros E; injection E as <-; discriminate].
    destruct (reply qs) as [b|] eqn:Hrep;
      [|unfold perform_forward, iter_handlereply; rewrite Hrep; discriminate].
    rewrite (forward_reply_exact K X qs o b Hrep).
    destruct (reply_info_parse X b) as [[[rq rm] re]|] eqn:Hp;
      [|intros E; injection E as <-; discriminate].
    destruct (reply_info_answer_encode X rq rm 0 (query_flags qs) 0 0
                (udp_size (edns qs)) (advertised_edns K qs))
      as [bytes|] eqn:He;
      [|intros E; injection E as <-; discriminate].
    intros E _. injection E as <-. split; [reflexivity|].
    exists o, b, rq, rm, re, bytes. repeat split; assumption.
  - intros fuel event ob Hev Hcase. rewrite Hby. unfold perform_forward.
    destruct event; [contradiction| | | |]; destruct ob as [o|];
      try reflexivity;
      destruct Hcase as [H | [H | H]]; discriminate.
  - intros fuel o b Hrep. rewrite Hby, (forward_reply_exact K X qs o b Hrep).
    split.
    + intros Hp. rewrite Hp. reflexivity.
    + intros rq rm re Hp He. rewrite Hp, He. reflexivity.
Qed.

Lemma forward_mode_bypasses_iterator_witness :
  (exists qs',
     iter_operate K0 X_hit 0 (qs_new qi_example_A ie_fwd []) module_event_new
       None = Ok qs' /\
     trace qs' = [SendQuery example_com 13 1 1 0 1 [192; 0; 2; 53] 4] /\
     ext_state qs' = module_wait_reply) /\
  (exists qs',
     iter_operate K0 X_fwd 0 (qs_waiting [0]) module_event_reply (Some 1) =
       Ok qs' /\
     ext_state qs' = module_finished /\
     buf qs' = [512] /\
     trace qs' = [CacheStore qi_example_A 7 (rep msg_CD)] /\
     msg_cache (env qs') = [(qi_example_A, 7, rep msg_CD)]).
Proof.
  split.
  - assert (Hfwd : fwd_addrlen (modinfo (env (qs_new qi_example_A ie_fwd [])))
                   <> 0) by discriminate.
    destruct (forward_mode_bypasses_iterator K0 X_hit
                (qs_new qi_example_A ie_fwd []) Hfwd) as (_ & Hnew & _).
    destruct (Hnew 0%nat None) as (qs' & E & Ht & He).
    exists qs'. repeat split; assumption.
  - assert (Hfwd : fwd_addrlen (modinfo (env (qs_waiting [0]))) <> 0)
      by discriminate.
    destruct (forward_mode_bypasses_iterator K0 X_fwd (qs_waiting [0]) Hfwd)
      as (_ & _ & _ & _ & Hok & _).
    destruct (Hok 0%nat 1 [0] qi_example_A (rep msg_CD) edns0 [512]
                eq_refl eq_refl eq_refl) as (qs' & E & He & Hb & Ht & Hm).
    exists qs'. repeat split; assumption.
Defined.

(** * Further properties *)

(** ** One run of the handler *)

Lemma handler_keeps_refl qs iq : handler_keeps qs iq qs iq.
Proof. unfold handler_keeps. repeat split. Qed.

Lemma handler_keeps_trans qs iq qs1 iq1 qs2 iq2 :
  handler_keeps qs iq qs1 iq1 ->
  handler_keeps qs1 iq1 qs2 iq2 ->
  handler_keeps qs iq qs2 iq2.
Proof.
  unfold handler_keeps.
  intros (A1 & A2 & A3 & A4 & A5 & A6 & A7 & A8 & A9 & A10 & A11 & A12 & A13)
         (B1 & B2 & B3 & B4 & B5 & B6 & B7 & B8 & B9 & B10 & B11 & B12 & B13).
  repeat split; congruence.
Qed.

Lemma sends_record_other qs c :
  is_send c = false -> sends (trace (record qs c)) = sends (trace qs).
Proof.
  intros Hc. unfold sends. cbn. rewrite filter_app. cbn. rewrite Hc.
  apply app_nil_r.
Qed.

Lemma next_state_keeps qs iq s cont qs' iq' :
  next_state qs iq s = (cont, qs', iq') -> handler_keeps qs iq qs' iq'.
Proof.
  rewrite next_state_value. intros E. injection E as <- <- <-.
  unfold handler_keeps.
  destruct (iter_state_is_responsestate s), (reply qs) eqn:Hr;
    rewrite ?sends_record_other by reflexivity; cbn; rewrite ?Hr;
    repeat split.
Qed.

Lemma error_response_keeps X qs iq rcode cont qs' iq' :
  error_response X qs iq rcode = (cont, qs', iq') ->
  handler_keeps qs iq qs' iq'.
Proof.
  rewrite error_response_value. intros E.
  apply next_state_keeps in E. exact E.
Qed.

Lemma processInitRequest_keeps K X qs iq ie cont qs' iq' :
  processInitRequest K X qs iq ie = (cont, qs', iq') ->
  handler_keeps qs iq qs' iq'.
Proof.
  unfold processInitRequest.
  destruct (MAX_RESTART_COUNT K <? query_restart_count iq);
    [apply error_response_keeps|].
  destruct (max_dependency_depth ie <? module_subreq_depth qs);
    [apply error_response_keeps|].
  destruct (dns_cache_lookup X _ _ _ _ _ _).
  - intros E. apply next_state_keeps in E.
    eapply handler_keeps_trans; [|exact E].
    unfold handler_keeps. rewrite sends_record_other by reflexivity.
    repeat split.
  - destruct (delegation_name (qinfo qs)) as [delname delnamelen].
    cbn zeta. cbn [dp set_dp].
    destruct (dns_cache_find_delegation X _ _ _ _).
    + intros E. apply next_state_keeps in E.
      eapply handler_keeps_trans; [|exact E].
      unfold handler_keeps. rewrite !sends_record_other by reflexivity.
      repeat split.
    + intros E. injection E as <- <- <-.
      unfold handler_keeps. rewrite !sends_record_other by reflexivity.
      repeat split.
Qed.

Lemma iter_handle_keeps K X ie : forall fuel qs iq qs' iq',
  iter_handle K X fuel qs iq ie = Ok (qs', iq') ->
  handler_keeps qs iq qs' iq'.
Proof.
  induction fuel as [|fuel IH]; intros qs iq qs' iq'; [discriminate|].
  cbn [iter_handle].
  assert (Hstop : Ok (record qs (LogWarn "iterator: invalid state"), iq) =
                  Ok (qs', iq') -> handler_keeps qs iq qs' iq').
  { intros E. injection E as <- <-. unfold handler_keeps.
    rewrite sends_record_other by reflexivity. repeat split. }
  destruct (state iq); try exact Hstop.
  destruct (processInitRequest K X qs iq ie) as [[cont qs1] iq1] eqn:Ep.
  apply processInitRequest_keeps in Ep.
  destruct cont.
  - intros E. apply IH in E. eapply handler_keeps_trans; eassumption.
  - intros E. injection E as <- <-. exact Ep.
Qed.

(** The four ways a run of the handler ends: an error response, a restart,
    a suspension, or the step to the second stage. *)
Lemma processInitRequest_step K X qs iq ie cont qs' iq' :
  processInitRequest K X qs iq ie = (cont, qs', iq') ->
  ((MAX_RESTART_COUNT K < query_restart_count iq \/
    max_dependency_depth ie < module_subreq_depth qs) /\
   cont = true /\
   iq' = set_state iq (final_state_of iq) /\
   buf qs' = error_packet X (qinfo qs) LDNS_RCODE_SERVFAIL /\
   lookups (trace qs') = lookups (trace qs))
  \/
  (query_restart_count iq <= MAX_RESTART_COUNT K /\
   (exists msg, cache_lookup_of X qs = Some msg) /\
   cont = true /\
   iq' = set_state
           (set_query_restart_count iq (int_wrap (query_restart_count iq + 1)))
           INIT_REQUEST_STATE /\
   qs' = record qs (cache_lookup_call qs))
  \/
  (cache_lookup_of X qs = None /\
   delegation_lookup_of X qs = None /\
   cont = false /\
   iq' = set_dp iq None /\
   qs' = record (record qs (cache_lookup_call qs)) (delegation_lookup_call qs))
  \/
  (cache_lookup_of X qs = None /\
   (exists p, delegation_lookup_of X qs = Some p /\
              iq' = set_state (set_dp iq (Some p)) INIT_REQUEST_2_STATE) /\
   cont = true /\
   qs' = record (record qs (cache_lookup_call qs)) (delegation_lookup_call qs)).
Proof.
  destruct (Z.ltb_spec (MAX_RESTART_COUNT K) (query_restart_count iq)) as [Hc|Hc].
  { intros E. left. unfold processInitRequest in E.
    destruct (Z.ltb_spec (MAX_RESTART_COUNT K) (query_restart_count iq));
      [|lia].
    apply error_response_frame in E as (-> & Hb & -> & _ & Hl & _).
    repeat split; auto. }
  destruct (Z.ltb_spec (max_dependency_depth ie) (module_subreq_depth qs))
    as [Hd|Hd].
  { intros E. left. unfold processInitRequest in E.
    destruct (Z.ltb_spec (MAX_RESTART_COUNT K) (query_restart_count iq));
      [lia|].
    destruct (Z.ltb_spec (max_dependency_depth ie) (module_subreq_depth qs));
      [|lia].
    apply error_response_frame in E as (-> & Hb & -> & _ & Hl & _).
    repeat split; auto. }
  rewrite (processInitRequest_within_limits K X qs iq ie Hc Hd).
  destruct (cache_lookup_of X qs) as [msg|] eqn:Hhit.
  - rewrite next_state_value. cbn [iter_state_is_responsestate].
    intros E. injection E as <- <- <-. right. left.
    repeat split; eauto.
  - cbn zeta. destruct (delegation_lookup_of X qs) as [p|] eqn:Hdel.
    + rewrite next_state_value. cbn [iter_state_is_responsestate].
      intros E. injection E as <- <- <-. right. right. right.
      repeat split; eauto.
    + intros E. injection E as <- <- <-. right. right. left.
      repeat split.
Qed.

Lemma int_wrap_succ K c :
  - 2 ^ 31 <= c -> MAX_RESTART_COUNT K < INT_MAX -> c <= MAX_RESTART_COUNT K ->
  int_wrap (c + 1) = c + 1.
Proof.
  intros Hlo Hmax Hc. unfold int_wrap, INT_MAX in *. rewrite Z.mod_small; lia.
Qed.

(** ** The driving loop *)

(** More fuel does not change a result. *)
Lemma iter_handle_more_fuel K X ie : forall fuel extra qs iq r,
  iter_handle K X fuel qs iq ie = Ok r ->
  iter_handle K X (fuel + extra) qs iq ie = Ok r.
Proof.
  induction fuel as [|fuel IH]; intros extra qs iq r; [discriminate|].
  cbn [iter_handle Nat.add].
  destruct (state iq); try exact (fun E => E).
  destruct (processInitRequest K X qs iq ie) as [[cont qs1] iq1].
  destruct cont; [apply IH | exact (fun E => E)].
Qed.

(** The loop returns once the fuel covers the restarts that are left. *)
Lemma iter_handle_returns K X ie : forall n fuel qs iq,
  final_state_of iq <> INIT_REQUEST_STATE ->
  - 2 ^ 31 <= query_restart_count iq ->
  MAX_RESTART_COUNT K < INT_MAX ->
  MAX_RESTART_COUNT K + 1 - query_restart_count iq <= Z.of_nat n ->
  (n + 2 <= fuel)%nat ->
  exists r, iter_handle K X fuel qs iq ie = Ok r.
Proof.
  induction n as [|n IH]; intros fuel qs iq Hfin Hlo Hmax Hn Hfuel.
  - destruct fuel as [|[|fuel]]; try lia. cbn [iter_handle].
    destruct (state iq); try (eexists; reflexivity).
    destruct (processInitRequest K X qs iq ie) as [[cont qs1] iq1] eqn:Ep.
    apply processInitRequest_step in Ep
      as [(_ & -> & -> & _) | [(Hc & _) | [(_ & _ & -> & _) |
          (_ & (p & _ & ->) & -> & _)]]].
    + cbn [state set_state].
      destruct (final_state_of iq); try congruence; eexists; reflexivity.
    + lia.
    + eexists; reflexivity.
    + cbn. eexists; reflexivity.
  - destruct fuel as [|fuel]; [lia|]. cbn [iter_handle].
    destruct (state iq); try (eexists; reflexivity).
    destruct (processInitRequest K X qs iq ie) as [[cont qs1] iq1] eqn:Ep.
    apply processInitRequest_step in Ep
      as [(_ & -> & -> & _) | [(Hc & _ & -> & -> & _) | [(_ & _ & -> & _) |
          (_ & (p & _ & ->) & -> & _)]]].
    + destruct fuel as [|fuel]; [lia|]. cbn [iter_handle state set_state].
      destruct (final_state_of iq); try congruence; eexists; reflexivity.
    + apply IH; cbn; try assumption; try lia;
        rewrite (int_wrap_succ K) by assumption; lia.
    + eexists; reflexivity.
    + destruct fuel as [|fuel]; [lia|]. cbn. eexists; reflexivity.
Qed.

(** X1. For a query whose final state is not [INIT_REQUEST_STATE] (so for
    every query process_request starts), with an int counter and a limit
    below [INT_MAX], the driving loop returns within the restarts that are
    left plus two turns, with the same result for every larger number of
    turns. *)
Theorem iter_handle_terminates K X qs iq ie :
  final_state_of iq <> INIT_REQUEST_STATE ->
  - 2 ^ 31 <= query_restart_count iq ->
  MAX_RESTART_COUNT K < INT_MAX ->
  exists r,
    forall fuel,
      (turns_for K (query_restart_count iq) <= fuel)%nat ->
      iter_handle K X fuel qs iq ie = Ok r.
Proof.
  intros Hfin Hlo Hmax.
  destruct (iter_handle_returns K X ie
              (Z.to_nat (MAX_RESTART_COUNT K + 1 - query_restart_count iq))
              (turns_for K (query_restart_count iq)) qs iq Hfin Hlo Hmax)
    as [r Hr]; [lia | unfold turns_for; lia |].
  exists r. intros fuel Hfuel.
  replace fuel with
    (turns_for K (query_restart_count iq)
     + (fuel - turns_for K (query_restart_count iq)))%nat by lia.
  now apply iter_handle_more_fuel.
Qed.

Lemma iter_handle_terminates_witness :
  exists r,
    iter_handle K0 X_hit 11 (qs_new qi_example_A ie_iter []) (iq_top 0)
      ie_iter = Ok r.
Proof.
  destruct (iter_handle_terminates K0 X_hit (qs_new qi_example_A ie_iter [])
              (iq_top 0) ie_iter) as [r Hr].
  - discriminate.
  - cbn. lia.
  - cbn. lia.
  - exists r. apply Hr. cbn. lia.
Defined.

(** X2. Along the driving loop the restart counter never decreases and
    never passes the maximum by more than one: it ends between its value
    at entry and the larger of that value and [MAX_RESTART_COUNT + 1]. *)
Theorem restart_count_bounded K X ie : forall fuel qs iq qs' iq',
  - 2 ^ 31 <= query_restart_count iq ->
  MAX_RESTART_COUNT K < INT_MAX ->
  iter_handle K X fuel qs iq ie = Ok (qs', iq') ->
  query_restart_count iq <= query_restart_count iq' /\
  query_restart_count iq' <=
    Z.max (query_restart_count iq) (MAX_RESTART_COUNT K + 1).
Proof.
  induction fuel as [|fuel IH]; intros qs iq qs' iq' Hlo Hmax; [discriminate|].
  cbn [iter_handle].
  assert (Hstop : forall q, Ok (q, iq) = Ok (qs', iq') ->
            query_restart_count iq <= query_restart_count iq' /\
            query_restart_count iq' <=
              Z.max (query_restart_count iq) (MAX_RESTART_COUNT K + 1)).
  { intros q E. injection E as _ <-. lia. }
  destruct (state iq); try apply Hstop.
  destruct (processInitRequest K X qs iq ie) as [[cont qs1] iq1] eqn:Ep.
  apply processInitRequest_step in Ep
    as [(_ & -> & -> & _) | [(Hc & _ & -> & -> & _) | [(_ & _ & -> & -> & _) |
        (_ & (p & _ & ->) & -> & _)]]].
  - intros E. apply IH in E; cbn in *; try assumption; lia.
  - intros E. apply IH in E; cbn in *; try assumption;
      rewrite (int_wrap_succ K) in * by assumption; lia.
  - intros E. injection E as _ <-. cbn. lia.
  - intros E. apply IH in E; cbn in *; try assumption; lia.
Qed.

Lemma restart_count_bounded_witness :
  exists qs' iq',
    iter_handle K0 X_hit 11 (qs_new qi_example_A ie_iter []) (iq_top 0)
      ie_iter = Ok (qs', iq') /\
    0 <= query_restart_count iq' <= 9.
Proof.
  assert (Hlo : - 2 ^ 31 <= query_restart_count (iq_top 0)) by (cbn; lia).
  assert (Hmax : MAX_RESTART_COUNT K0 < INT_MAX) by (cbn; lia).
  destruct (iter_handle K0 X_hit 11 (qs_new qi_example_A ie_iter [])
              (iq_top 0) ie_iter) as [[qs' iq']| |] eqn:E;
    [|vm_compute in E; discriminate E|vm_compute in E; discriminate E].
  exists qs', iq'. split; [reflexivity|].
  pose proof (restart_count_bounded K0 X_hit ie_iter 11
                (qs_new qi_example_A ie_iter []) (iq_top 0) qs' iq' Hlo Hmax E)
    as H.
  cbn in H. lia.
Defined.

(** A query whose cache lookup hits is restarted until the counter is one
    past the maximum, and then answered with SERVFAIL. *)
Lemma cached_query_loop K X ie : forall n fuel qs iq msg,
  state iq = INIT_REQUEST_STATE ->
  final_state_of iq = FINISHED_STATE ->
  - 2 ^ 31 <= query_restart_count iq ->
  MAX_RESTART_COUNT K < INT_MAX ->
  MAX_RESTART_COUNT K + 1 - query_restart_count iq = Z.of_nat n ->
  module_subreq_depth qs <= max_dependency_depth ie ->
  cache_lookup_of X qs = Some msg ->
  (n + 2 <= fuel)%nat ->
  exists qs' iq',
    iter_handle K X fuel qs iq ie = Ok (qs', iq') /\
    state iq' = FINISHED_STATE /\
    query_restart_count iq' = MAX_RESTART_COUNT K + 1 /\
    buf qs' = error_packet X (qinfo qs) LDNS_RCODE_SERVFAIL /\
    lookups (trace qs') =
      lookups (trace qs) ++ repeat (cache_lookup_call qs) n.
Proof.
  induction n as [|n IH];
    intros fuel qs iq msg Hst Hfin Hlo Hmax Hn Hd Hhit Hfuel.
  - destruct fuel as [|[|fuel]]; try lia. cbn [iter_handle]. rewrite Hst.
    destruct (processInitRequest K X qs iq ie) as [[cont qs1] iq1] eqn:Ep.
    apply processInitRequest_step in Ep
      as [(_ & -> & -> & Hb & Hl) | [(Hc & _) | [(Hm & _) | (Hm & _)]]];
      try lia; try congruence.
    rewrite Hfin. cbn [state set_state].
    eexists _, _. split; [reflexivity|]. cbn.
    repeat split; [lia | exact Hb |].
    unfold lookups in *. rewrite filter_app, Hl. cbn. reflexivity.
  - destruct fuel as [|fuel]; [lia|]. cbn [iter_handle]. rewrite Hst.
    destruct (processInitRequest K X qs iq ie) as [[cont qs1] iq1] eqn:Ep.
    apply processInitRequest_step in Ep
      as [(Hlim & _) | [(Hc & _ & -> & -> & ->) | [(Hm & _) | (Hm & _)]]];
      try lia; try congruence.
    assert (Hw := int_wrap_succ K _ Hlo Hmax Hc).
    destruct (IH fuel (record qs (cache_lookup_call qs))
                (set_state
                   (set_query_restart_count iq
                      (int_wrap (query_restart_count iq + 1)))
                   INIT_REQUEST_STATE) msg)
      as (qs' & iq' & E & Hs & Hcnt & Hb & Hl);
      cbn; try assumption; try reflexivity; try lia.
    exists qs', iq'. split; [exact E|]. repeat split; try assumption.
    rewrite Hl. unfold lookups. cbn [trace record].
    rewrite filter_app. cbn. rewrite <- app_assoc. reflexivity.
Qed.

(** X3. A query started by process_request whose cache lookup returns a
    message is never answered from the cache: the lookup is repeated, once
    for each restart up to one past the maximum, and the query ends in
    [FINISHED_STATE] with the SERVFAIL packet in the buffer. *)
Theorem cached_query_ends_servfail K X qs iq ie msg fuel :
  0 <= query_restart_count iq <= MAX_RESTART_COUNT K + 1 ->
  MAX_RESTART_COUNT K < INT_MAX ->
  module_subreq_depth qs <= max_dependency_depth ie ->
  cache_lookup_of X qs = Some msg ->
  (turns_for K (query_restart_count iq) <= fuel)%nat ->
  exists qs' iq',
    process_request K X fuel qs iq ie = Ok (qs', iq') /\
    state iq' = FINISHED_STATE /\
    query_restart_count iq' = MAX_RESTART_COUNT K + 1 /\
    buf qs' = error_packet X (qinfo qs) LDNS_RCODE_SERVFAIL /\
    lookups (trace qs') =
      lookups (trace qs) ++
      repeat (cache_lookup_call qs)
        (Z.to_nat (MAX_RESTART_COUNT K + 1 - query_restart_count iq)).
Proof.
  intros Hc Hmax Hd Hhit Hfuel. unfold process_request.
  apply (cached_query_loop K X ie _ fuel qs _ msg); cbn;
    try reflexivity; try assumption; try lia.
Qed.

Lemma cached_query_ends_servfail_witness :
  exists qs' iq',
    process_request K0 X_hit 11 (qs_new qi_example_A ie_iter []) (iq_top 0)
      ie_iter = Ok (qs', iq') /\
    state iq' = FINISHED_STATE /\
    List.length (lookups (trace qs')) = 9%nat.
Proof.
  destruct (cached_query_ends_servfail K0 X_hit
              (qs_new qi_example_A ie_iter []) (iq_top 0) ie_iter msg_CD 11)
    as (qs' & iq' & E & Hs & _ & _ & Hl).
  - cbn. lia.
  - cbn. lia.
  - cbn. lia.
  - reflexivity.
  - cbn. lia.
  - exists qs', iq'. split; [exact E|]. split; [exact Hs|].
    rewrite Hl. reflexivity.
Defined.

(** X4. A query within the restart limit whose dependency depth is above
    the configured maximum is answered as error_response with SERVFAIL
    does, before any lookup: the buffer holds the error packet, the state
    is the final state of the query, and nothing is looked up or sent. *)
Theorem dependency_depth_exceeded_servfail K X qs iq ie :
  query_restart_count iq <= MAX_RESTART_COUNT K ->
  max_dependency_depth ie < module_subreq_depth qs ->
  exists qs',
    processInitRequest K X qs iq ie =
      (true, qs', set_state iq (final_state_of iq)) /\
    error_response X qs iq LDNS_RCODE_SERVFAIL =
      (true, qs', set_state iq (final_state_of iq)) /\
    buf qs' = error_packet X (qinfo qs) LDNS_RCODE_SERVFAIL /\
    lookups (trace qs') = lookups (trace qs) /\
    sends (trace qs') = sends (trace qs).
Proof.
  intros Hc Hd.
  assert (E : processInitRequest K X qs iq ie =
              error_response X qs iq LDNS_RCODE_SERVFAIL).
  { unfold processInitRequest.
    destruct (Z.ltb_spec (MAX_RESTART_COUNT K) (query_restart_count iq));
      [lia|].
    destruct (Z.ltb_spec (max_dependency_depth ie) (module_subreq_depth qs));
      [reflexivity | lia]. }
  rewrite E.
  destruct (error_response X qs iq LDNS_RCODE_SERVFAIL)
    as [[cont qs'] iq'] eqn:Her.
  apply error_response_frame in Her as (-> & Hb & -> & _ & Hl & Hs).
  exists qs'. repeat split; assumption.
Qed.

Lemma dependency_depth_exceeded_servfail_witness :
  exists qs',
    processInitRequest K0 X_hit qs_deep (iq_top 0) ie_iter =
      (true, qs', set_state (iq_top 0) FINISHED_STATE) /\
    lookups (trace qs') = [].
Proof.
  destruct (dependency_depth_exceeded_servfail K0 X_hit qs_deep (iq_top 0)
              ie_iter) as (qs' & E & _ & _ & Hl & _).
  - cbn. lia.
  - cbn. lia.
  - exists qs'. split; [exact E | exact Hl].
Defined.

(** X5. After a cache miss, when the delegation lookup finds a delegation
    point, the handler records it in [dp], sets the state to
    [INIT_REQUEST_2_STATE] and returns true; no handler exists for that
    state, so on its next turn the driving loop logs the invalid state and
    stops there, with the buffer untouched and nothing sent. *)
Theorem delegation_found_advances K X qs iq ie p :
  query_restart_count iq <= MAX_RESTART_COUNT K ->
  module_subreq_depth qs <= max_dependency_depth ie ->
  cache_lookup_of X qs = None ->
  delegation_lookup_of X qs = Some p ->
  let qs2 := record (record qs (cache_lookup_call qs))
               (delegation_lookup_call qs) in
  let iq2 := set_state (set_dp iq (Some p)) INIT_REQUEST_2_STATE in
  processInitRequest K X qs iq ie = (true, qs2, iq2) /\
  dp iq2 = Some p /\
  buf qs2 = buf qs /\
  sends (trace qs2) = sends (trace qs) /\
  (forall fuel,
     state iq = INIT_REQUEST_STATE ->
     iter_handle K X (S (S fuel)) qs iq ie =
       Ok (record qs2 (LogWarn "iterator: invalid state"), iq2)).
Proof.
  intros Hc Hd Hmiss Hdel qs2 iq2.
  assert (E : processInitRequest K X qs iq ie = (true, qs2, iq2)).
  { rewrite (processInitRequest_within_limits K X qs iq ie Hc Hd).
    rewrite Hmiss, Hdel. reflexivity. }
  split; [exact E|]. repeat split.
  - subst qs2. now rewrite !sends_record_other.
  - intros fuel Hst. cbn [iter_handle]. rewrite Hst, E. reflexivity.
Qed.

Lemma delegation_found_advances_witness :
  processInitRequest K0 X_deleg (qs_new qi_example_A ie_iter []) (iq_top 0)
    ie_iter =
  (true,
   record (record (qs_new qi_example_A ie_iter [])
             (CacheLookup example_com 13 1 1 false))
     (FindDelegation example_com 13 1),
   set_state (set_dp (iq_top 0) (Some [[198; 41; 0; 4]])) INIT_REQUEST_2_STATE).
Proof.
  apply (delegation_found_advances K0 X_deleg (qs_new qi_example_A ie_iter [])
           (iq_top 0) ie_iter [[198; 41; 0; 4]]).
  - cbn. lia.
  - cbn. lia.
  - reflexivity.
  - reflexivity.
Defined.

(** X6. For a query of any type but DS the delegation lookup that follows
    a cache miss is made on the query name itself, with its own length,
    whatever the name. *)
Theorem other_types_lookup_on_qname K X qs iq ie cont qs' iq' :
  qtype (qinfo qs) <> LDNS_RR_TYPE_DS ->
  query_restart_count iq <= MAX_RESTART_COUNT K ->
  module_subreq_depth qs <= max_dependency_depth ie ->
  cache_lookup_of X qs = None ->
  processInitRequest K X qs iq ie = (cont, qs', iq') ->
  trace qs' =
    trace qs ++
    [cache_lookup_call qs;
     FindDelegation (qname (qinfo qs)) (qname_len (qinfo qs))
       (qclass (qinfo qs))] /\
  dp iq' =
    dns_cache_find_delegation X (env qs) (qname (qinfo qs))
      (qname_len (qinfo qs)) (qclass (qinfo qs)).
Proof.
  intros Ht Hc Hd Hmiss.
  assert (Hdn : delegation_name (qinfo qs) =
                (qname (qinfo qs), qname_len (qinfo qs))).
  { unfold delegation_name.
    destruct (Z.eqb_spec (qtype (qinfo qs)) LDNS_RR_TYPE_DS);
      [contradiction | reflexivity]. }
  rewrite (processInitRequest_within_limits K X qs iq ie Hc Hd), Hmiss.
  unfold delegation_lookup_of, delegation_lookup_call. rewrite Hdn.
  cbn [fst snd]. cbn zeta.
  destruct (dns_cache_find_delegation X _ _ _ _) eqn:Hdp.
  - rewrite next_state_value. cbn [iter_state_is_responsestate].
    intros E. injection E as <- <- <-. cbn. now rewrite <- app_assoc.
  - intros E. injection E as <- <- <-. cbn. now rewrite <- app_assoc.
Qed.

Lemma other_types_lookup_on_qname_witness :
  exists cont qs' iq',
    processInitRequest K0 X_miss (qs_new qi_example_A ie_iter []) (iq_top 0)
      ie_iter = (cont, qs', iq') /\
    trace qs' =
      [CacheLookup example_com 13 1 1 false; FindDelegation example_com 13 1].
Proof.
  assert (Ht : qtype (qinfo (qs_new qi_example_A ie_iter [])) <> LDNS_RR_TYPE_DS)
    by discriminate.
  assert (Hc : query_restart_count (iq_top 0) <= MAX_RESTART_COUNT K0)
    by (cbn; lia).
  assert (Hd : module_subreq_depth (qs_new qi_example_A ie_iter []) <=
               max_dependency_depth ie_iter) by (cbn; lia).
  eexists _, _, _. split; [vm_compute; reflexivity|].
  exact (proj1 (other_types_lookup_on_qname K0 X_miss
                  (qs_new qi_example_A ie_iter []) (iq_top 0) ie_iter
                  _ _ _ Ht Hc Hd eq_refl eq_refl)).
Defined.

(** ** The entry point without a forward address *)

Lemma iter_operate_iterating K X fuel qs event ob :
  fwd_addrlen (modinfo (env qs)) = 0 ->
  iter_operate K X fuel qs event ob =
    match event with
    | module_event_new =>
        match iter_new qs with
        | (true, qs1) =>
            match minfo qs1 with
            | Some iq =>
                let* (qs2, iq2) :=
                  process_request K X fuel qs1 iq (modinfo (env qs)) in
                Ok (set_minfo qs2 (Some iq2))
            | None => Undefined
            end
        | (false, qs1) => Ok (set_ext_state qs1 module_error)
        end
    | module_event_reply =>
        match minfo qs with
        | Some iq =>
            let* (qs2, iq2) :=
              process_response K X fuel qs iq (modinfo (env qs)) in
            Ok (set_minfo qs2 (Some iq2))
        | None => Undefined
        end
    | _ =>
        Ok (set_ext_state (record qs (LogErr "bad event for iterator"))
              module_error)
    end.
Proof. intros H. unfold iter_operate. rewrite H. reflexivity. Qed.

(** X7. Without a forward address no event makes the module send an
    upstream query, store into the cache or report progress: when
    iter_operate returns, the queries sent and the environment are the
    ones before the event, and the module state is either the one before
    the event or the error state. *)
Theorem iterating_never_sends K X fuel qs event ob qs' :
  fwd_addrlen (modinfo (env qs)) = 0 ->
  iter_operate K X fuel qs event ob = Ok qs' ->
  sends (trace qs') = sends (trace qs) /\
  env qs' = env qs /\
  qinfo qs' = qinfo qs /\
  (ext_state qs' = ext_state qs \/ ext_state qs' = module_error).
Proof.
  intros Hfwd. rewrite (iter_operate_iterating K X fuel qs event ob Hfwd).
  assert (Hbad : Ok (set_ext_state (record qs (LogErr "bad event for iterator"))
                       module_error) = Ok qs' ->
                 sends (trace qs') = sends (trace qs) /\ env qs' = env qs /\
                 qinfo qs' = qinfo qs /\
                 (ext_state qs' = ext_state qs \/ ext_state qs' = module_error)).
  { intros E. injection E as <-. cbn [trace set_ext_state].
    rewrite sends_record_other by reflexivity. repeat split. now right. }
  destruct event; try exact Hbad.
  - unfold iter_new. destruct (region_alloc (qregion qs)) as [[|] r1];
      cbn [negb].
    + cbn [minfo set_minfo]. unfold process_request.
      match goal with
      | |- context [iter_handle K X fuel ?q ?i ?e] =>
          destruct (iter_handle K X fuel q i e) as [[qs2 iq2]| |] eqn:Eh
      end; cbn [bind]; try discriminate.
      intros E. injection E as <-.
      apply iter_handle_keeps in Eh
        as (Hs & He & Hv & _ & Hq & _). cbn in *.
      repeat split; try assumption. now left.
    + intros E. injection E as <-. cbn. repeat split. now right.
  - destruct (minfo qs) as [iq|]; [|discriminate]. unfold process_response.
    destruct (iter_handle K X fuel qs (set_state iq QUERY_RESP_STATE)
                (modinfo (env qs))) as [[qs2 iq2]| |] eqn:Eh;
      cbn [bind]; try discriminate.
    intros E. injection E as <-.
    apply iter_handle_keeps in Eh as (Hs & He & Hv & _ & Hq & _). cbn in *.
    repeat split; try assumption. now left.
Qed.

Lemma iterating_never_sends_witness :
  exists qs',
    iter_operate K0 X_hit 11 (qs_new qi_example_A ie_iter []) module_event_new
      None = Ok qs' /\
    sends (trace qs') = [] /\ ext_state qs' = module_state_initial.
Proof.
  destruct (iter_operate K0 X_hit 11 (qs_new qi_example_A ie_iter [])
              module_event_new None) as [qs'| |] eqn:E;
    [|vm_compute in E; discriminate E|vm_compute in E; discriminate E].
  exists qs'. split; [reflexivity|].
  destruct (iterating_never_sends K0 X_hit 11 (qs_new qi_example_A ie_iter [])
              module_event_new None qs' eq_refl E) as (Hs & _ & _ & He).
  split; [exact Hs|].
  vm_compute in E. injection E as <-. reflexivity.
Defined.

(** X8. Without a forward address a new-query event always returns, within
    [MAX_RESTART_COUNT + 3] turns of the driving loop (two when the limit
    is negative) and with the same result for more, provided the limit is
    below [INT_MAX]. *)
Theorem new_query_returns K X qs ob :
  fwd_addrlen (modinfo (env qs)) = 0 ->
  MAX_RESTART_COUNT K < INT_MAX ->
  exists qs',
    forall fuel,
      (turns_for K 0 <= fuel)%nat ->
      iter_operate K X fuel qs module_event_new ob = Ok qs'.
Proof.
  intros Hfwd Hmax.
  destruct (region_alloc (qregion qs)) as [[|] r1] eqn:Ha.
  - pose (iq :=
            {| state := INIT_REQUEST_STATE;
               final_state_of := FINISHED_STATE;
               prepend_list := []; dp := None; current_target := None;
               num_target_queries := -1; num_current_queries := 0;
               query_restart_count := 0; referral_count := 0;
               priming_stub := 0; orig_qname := None;
               orig_qnamelen := 0; orig_qflags := query_flags qs;
               outlist := [] |}).
    destruct (iter_handle_returns K X (modinfo (env qs))
                (Z.to_nat (MAX_RESTART_COUNT K + 1)) (turns_for K 0)
                (set_minfo (set_qregion qs r1) (Some iq))
                (set_final_state (set_state iq INIT_REQUEST_STATE)
                   FINISHED_STATE))
      as [[qs2 iq2] Hr]; cbn; try discriminate; try lia.
    { exact Hmax. }
    { unfold turns_for. rewrite Z.sub_0_r. lia. }
    exists (set_minfo qs2 (Some iq2)). intros fuel Hfuel.
    rewrite (iter_operate_iterating K X fuel qs _ ob Hfwd).
    unfold iter_new. rewrite Ha. cbn [negb minfo set_minfo].
    unfold process_request.
    replace fuel with (turns_for K 0 + (fuel - turns_for K 0))%nat by lia.
    pose proof (iter_handle_more_fuel K X _ _ (fuel - turns_for K 0)%nat
                  _ _ _ Hr) as Hr'.
    subst iq. unfold process_request in *. rewrite Hr'. reflexivity.
  - exists (set_ext_state (set_minfo (set_qregion qs r1) None) module_error).
    intros fuel _.
    rewrite (iter_operate_iterating K X fuel qs _ ob Hfwd).
    unfold iter_new. rewrite Ha. reflexivity.
Qed.

Lemma new_query_returns_witness :
  exists qs',
    iter_operate K0 X_hit 11 (qs_new qi_example_A ie_iter []) module_event_new
      None = Ok qs'.
Proof.
  destruct (new_query_returns K0 X_hit (qs_new qi_example_A ie_iter []) None)
    as [qs' H].
  - reflexivity.
  - cbn. lia.
  - exists qs'. apply H. cbn. lia.
Defined.

(** X9. Without a forward address a reply event for a query that has its
    iterator state is not processed: the state is set to
    [QUERY_RESP_STATE], for which no handler exists, so the loop logs the
    invalid state and returns at once; the buffer, the module state and
    the rest of the query are left as they were. *)
Theorem reply_event_not_handled K X fuel qs iq ob :
  fwd_addrlen (modinfo (env qs)) = 0 ->
  minfo qs = Some iq ->
  iter_operate K X (S fuel) qs module_event_reply ob =
    Ok (set_minfo (record qs (LogWarn "iterator: invalid state"))
          (Some (set_state iq QUERY_RESP_STATE))) /\
  buf (record qs (LogWarn "iterator: invalid state")) = buf qs /\
  ext_state (record qs (LogWarn "iterator: invalid state")) = ext_state qs.
Proof.
  intros Hfwd Hm. rewrite (iter_operate_iterating K X _ qs _ ob Hfwd), Hm.
  repeat split.
Qed.

Lemma reply_event_not_handled_witness :
  iter_operate K0 X_hit 1
    (set_minfo (qs_new qi_example_A ie_iter []) (Some (iq_top 0)))
    module_event_reply (Some 1) =
  Ok (set_minfo
        (record (set_minfo (qs_new qi_example_A ie_iter []) (Some (iq_top 0)))
           (LogWarn "iterator: invalid state"))
        (Some (set_state (iq_top 0) QUERY_RESP_STATE))).
Proof.
  apply (reply_event_not_handled K0 X_hit 0
           (set_minfo (qs_new qi_example_A ie_iter []) (Some (iq_top 0)))
           (iq_top 0) (Some 1)); reflexivity.
Defined.

(** X18. Without a forward address, a new-query event for which the region
    has no memory for the iterator state ends in the error state, with the
    slot of the module set to NULL and nothing looked up, sent or
    written to the buffer. *)
Theorem new_query_without_memory K X fuel qs ob r1 :
  fwd_addrlen (modinfo (env qs)) = 0 ->
  region_alloc (qregion qs) = (false, r1) ->
  exists qs',
    iter_operate K X fuel qs module_event_new ob = Ok qs' /\
    ext_state qs' = module_error /\
    minfo qs' = None /\
    trace qs' = trace qs /\
    buf qs' = buf qs.
Proof.
  intros Hfwd Ha. rewrite (iter_operate_iterating K X _ qs _ ob Hfwd).
  unfold iter_new. rewrite Ha. cbn [negb].
  eexists. split; [reflexivity|]. repeat split.
Qed.

Lemma new_query_without_memory_witness :
  exists qs',
    iter_operate K0 X_hit 0 (qs_new qi_example_A ie_iter [false])
      module_event_new None = Ok qs' /\
    ext_state qs' = module_error /\ minfo qs' = None.
Proof.
  destruct (new_query_without_memory K0 X_hit 0
              (qs_new qi_example_A ie_iter [false]) None [] eq_refl eq_refl)
    as (qs' & E & He & Hm & _).
  exists qs'. repeat split; assumption.
Defined.

(** ** The error response, again *)

Lemma rcode_nibble x r :
  0 <= r < 16 ->
  Z.land (Z.lor (Z.land x (Z.lnot LDNS_RCODE_MASK)) r mod 256) LDNS_RCODE_MASK
    = r.
Proof.
  intros Hr. unfold LDNS_RCODE_MASK.
  change 15 with (Z.ones 4) at 2. rewrite Z.land_ones by lia.
  rewrite Z.mod_mod_divide by (now exists 16).
  rewrite <- Z.land_ones by lia.
  rewrite Z.land_lor_distr_l, <- Z.land_assoc.
  change (Z.land (Z.lnot 15) (Z.ones 4)) with 0.
  rewrite Z.land_0_r, Z.lor_0_l, Z.land_ones by lia.
  apply Z.mod_small. change (2 ^ 4) with 16. lia.
Qed.

(** X11. When the encoded query has the four first bytes of its header and
    the rcode fits its four bits, the packet of error_response has that
    rcode in the low nibble of byte 3 and the QR flag set in byte 2; it has
    the length of the encoded query and the same bytes everywhere else. *)
Theorem error_packet_header X qi rcode :
  0 <= rcode < 16 ->
  (4 <= List.length (qinfo_query_encode X qi))%nat ->
  LDNS_RCODE_WIRE (error_packet X qi rcode) = rcode /\
  LDNS_QR_WIRE (error_packet X qi rcode) = true /\
  List.length (error_packet X qi rcode) =
    List.length (qinfo_query_encode X qi) /\
  (forall j, j <> 2%nat -> j <> 3%nat ->
     nth j (error_packet X qi rcode) 0 = nth j (qinfo_query_encode X qi) 0).
Proof.
  intros Hr Hlen. unfold error_packet, LDNS_RCODE_WIRE, LDNS_QR_WIRE,
    LDNS_QR_SET, LDNS_RCODE_SET. repeat split.
  - rewrite nth_poke_other by lia. rewrite nth_poke_same by lia.
    now apply rcode_nibble.
  - rewrite nth_poke_same by (rewrite length_poke; lia). apply qr_bit_set.
  - now rewrite !length_poke.
  - intros j H2 H3. rewrite !nth_poke_other by congruence. reflexivity.
Qed.

Lemma error_packet_header_witness :
  LDNS_RCODE_WIRE (error_packet X_hit qi_example_A LDNS_RCODE_SERVFAIL) = 2 /\
  LDNS_QR_WIRE (error_packet X_hit qi_example_A LDNS_RCODE_SERVFAIL) = true.
Proof.
  destruct (error_packet_header X_hit qi_example_A LDNS_RCODE_SERVFAIL)
    as (Hc & Hq & _).
  - unfold LDNS_RCODE_SERVFAIL. lia.
  - cbn. lia.
  - split; assumption.
Defined.

(** X10. error_response is idempotent on the answer: called again with the
    same rcode on the state it left, it leaves the same buffer and the
    same iterator state. *)
Theorem error_response_idempotent X qs iq rcode cont1 qs1 iq1 cont2 qs2 iq2 :
  error_response X qs iq rcode = (cont1, qs1, iq1) ->
  error_response X qs1 iq1 rcode = (cont2, qs2, iq2) ->
  buf qs2 = buf qs1 /\ iq2 = iq1 /\ cont2 = cont1.
Proof.
  intros E1 E2.
  pose proof (error_response_keeps _ _ _ _ _ _ _ E1) as (_ & _ & _ & _ & Hq & _).
  apply error_response_frame in E1 as (-> & Hb1 & -> & _).
  apply error_response_frame in E2 as (-> & Hb2 & -> & _).
  rewrite Hb1, Hb2, Hq. repeat split.
Qed.

Lemma error_response_idempotent_witness :
  exists qs1 iq1 qs2 iq2,
    error_response X_hit (qs_new qi_example_A ie_iter []) (iq_top 9)
      LDNS_RCODE_SERVFAIL = (true, qs1, iq1) /\
    error_response X_hit qs1 iq1 LDNS_RCODE_SERVFAIL = (true, qs2, iq2) /\
    buf qs2 = buf qs1 /\ iq2 = iq1.
Proof.
  eexists _, _, _, _. split; [reflexivity|]. split; [reflexivity|].
  destruct (error_response_idempotent X_hit (qs_new qi_example_A ie_iter [])
              (iq_top 9) LDNS_RCODE_SERVFAIL _ _ _ _ _ _ eq_refl eq_refl)
    as (Hb & Hi & _).
  split; assumption.
Defined.

(** X12. An error response for a query whose final state is a response
    state goes through the check of next_state: when no reply is attached,
    as for a new query, it adds the line of the missing response to the
    log, and nothing else to the trace; with a reply attached the trace is
    unchanged. *)
Theorem error_response_logs_missing_reply X qs iq rcode cont qs' iq' :
  iter_state_is_responsestate (final_state_of iq) = true ->
  error_response X qs iq rcode = (cont, qs', iq') ->
  trace qs' =
    trace qs ++
    match reply qs with
    | None => [LogErr "transitioning to response state sans response."]
    | Some _ => []
    end.
Proof.
  intros Hf. rewrite error_response_value, next_state_value, Hf.
  cbn [reply set_buf]. intros E. injection E as <- <- <-.
  destruct (reply qs); cbn; [now rewrite app_nil_r | reflexivity].
Qed.

Lemma error_response_logs_missing_reply_witness :
  exists cont qs' iq',
    error_response X_hit (qs_new qi_example_A ie_iter []) (iq_top 9)
      LDNS_RCODE_SERVFAIL = (cont, qs', iq') /\
    trace qs' = [LogErr "transitioning to response state sans response."].
Proof.
  eexists _, _, _. split; [reflexivity|].
  exact (error_response_logs_missing_reply X_hit
           (qs_new qi_example_A ie_iter []) (iq_top 9) LDNS_RCODE_SERVFAIL
           _ _ _ eq_refl eq_refl).
Defined.

(** ** The splice and the encoder, when they succeed *)

(** X13. When the allocations succeed, iter_prepend returns 1 and leaves
    [rrset_count] and the question of the message as they were. For an
    empty prepend list it allocates nothing and the message is untouched;
    otherwise it takes one allocation for the array and one for each
    entry, and the array holds the copies of the prepend entries, in the
    order of the list, followed by the record sets of the message in their
    order. *)
Theorem iter_prepend_success iq msg r :
  allocs_succeed (S (List.length (prepend_list iq))) r = true ->
  exists msg' r',
    iter_prepend iq msg r = (true, msg', r') /\
    rrset_count (rep msg') = rrset_count (rep msg) /\
    msg_qinfo msg' = msg_qinfo msg /\
    (prepend_list iq = [] -> msg' = msg /\ r' = r) /\
    (prepend_list iq <> [] ->
     rrsets (rep msg') =
       map copy_of (prepend_list iq) ++ reply_rrsets (rep msg) /\
     r' = skipn (S (List.length (prepend_list iq))) r).
Proof.
  intros Hr.
  destruct (prepend_list iq) as [|e p] eqn:Ep.
  - exists msg, r. unfold iter_prepend. rewrite Ep. cbn.
    repeat split; congruence.
  - assert (Hne : prepend_list iq <> []) by congruence.
    rewrite <- Ep in Hr.
    pose proof (iter_prepend_array iq msg r Hne Hr) as E.
    rewrite Ep in E. eexists _, _. split; [exact E|].
    cbn. repeat split; congruence.
Qed.

Lemma iter_prepend_success_witness :
  exists msg' r',
    iter_prepend (set_prepend_list (iq_top 0) [rrset_A; rrset_B]) msg_CD
      [true; true; true; false] = (true, msg', r') /\
    rrsets (rep msg') =
      [copy_of rrset_A; copy_of rrset_B; rrset_C; rrset_D] /\
    r' = [false].
Proof.
  destruct (iter_prepend_success
              (set_prepend_list (iq_top 0) [rrset_A; rrset_B]) msg_CD
              [true; true; true; false] eq_refl)
    as (msg' & r' & E & _ & _ & _ & H).
  exists msg', r'. split; [exact E|].
  apply H. discriminate.
Defined.

(** X14. When the splice and the encoder succeed, iter_encode_respmsg
    writes the encoded answer into the buffer and nothing else: the
    iterator state (so the state of the machine) is the one it was given,
    the EDNS record of the query and the trace are untouched; with an
    empty prepend list the message and the region are untouched too. *)
Theorem encode_success K X qs iq msg msg1 r1 b :
  splice qs iq msg = (true, msg1, r1) ->
  answer_encode_of K X qs iq msg1 = Some b ->
  exists qs',
    iter_encode_respmsg K X qs iq msg = (qs', iq, msg1) /\
    buf qs' = b /\
    qregion qs' = r1 /\
    edns qs' = edns qs /\
    trace qs' = trace qs /\
    ext_state qs' = ext_state qs /\
    (prepend_list iq = [] -> msg1 = msg /\ r1 = qregion qs).
Proof.
  intros Hsp Henc. exists (set_buf (set_qregion qs r1) b).
  split.
  - unfold iter_encode_respmsg. rewrite Hsp. cbn [negb].
    unfold answer_encode_of in Henc. rewrite Henc. reflexivity.
  - do 5 (split; [reflexivity|]).
    intros Hp. unfold splice in Hsp. rewrite Hp in Hsp.
    injection Hsp as <- <-. split; reflexivity.
Qed.

Lemma encode_success_witness :
  exists qs',
    iter_encode_respmsg K0 X_hit (qs_new qi_example_A ie_iter []) (iq_top 0)
      msg_CD = (qs', iq_top 0, msg_CD) /\
    buf qs' = [1].
Proof.
  destruct (encode_success K0 X_hit (qs_new qi_example_A ie_iter [])
              (iq_top 0) msg_CD msg_CD [] [1] eq_refl eq_refl)
    as (qs' & E & Hb & _).
  exists qs'. split; assumption.
Defined.

(** ** The names of the states *)

(** X15. The names iter_state_to_string gives the eight states are
    pairwise different, and none is the name of an unknown state. *)
Theorem iter_state_to_string_injective s1 s2 :
  iter_state_to_string s1 = iter_state_to_string s2 ->
  s1 = s2 /\ iter_state_to_string s1 <> "UNKNOWN ITER STATE"%string.
Proof.
  intros H. split.
  - destruct s1, s2; try reflexivity; discriminate H.
  - destruct s1; discriminate.
Qed.

Lemma iter_state_to_string_injective_witness :
  QUERY_RESP_STATE = QUERY_RESP_STATE /\
  iter_state_to_string QUERY_RESP_STATE <> "UNKNOWN ITER STATE"%string.
Proof.
  exact (iter_state_to_string_injective QUERY_RESP_STATE QUERY_RESP_STATE
           eq_refl).
Defined.

(** ** Forwarding, again *)

(** X16. With a forward address, a serviced reply that parses and encodes
    is answered with the encoding made for the UDP size the client asked
    for, read before the EDNS record of the query is overwritten with the
    advertised values; the reply is stored into the cache under the hash
    of the query and the module is finished. A reply that does not parse
    only sets the error state. *)
Theorem forwarded_reply_answered K X fuel qs o b :
  fwd_addrlen (modinfo (env qs)) <> 0 ->
  reply qs = Some b ->
  (forall rq rm re bytes,
     reply_info_parse X b = Some (rq, rm, re) ->
     reply_info_answer_encode X rq rm 0 (query_flags qs) 0 0
       (udp_size (edns qs)) (advertised_edns K qs) = Some bytes ->
     exists qs',
       iter_operate K X fuel qs module_event_reply (Some o) = Ok qs' /\
       buf qs' = bytes /\
       edns qs' = advertised_edns K qs /\
       ext_state qs' = module_finished /\
       msg_cache (env qs') = (rq, query_hash qs, rm) :: msg_cache (env qs) /\
       minfo qs' = minfo qs) /\
  (reply_info_parse X b = None ->
   iter_operate K X fuel qs module_event_reply (Some o) =
     Ok (set_ext_state qs module_error)).
Proof.
  intros Hfwd Hrep.
  assert (Hby : iter_operate K X fuel qs module_event_reply (Some o) =
                perform_forward K X qs module_event_reply (Some o)).
  { unfold iter_operate.
    destruct (Z.eqb_spec (fwd_addrlen (modinfo (env qs))) 0); [contradiction|].
    reflexivity. }
  rewrite Hby. unfold perform_forward, iter_handlereply. rewrite Hrep.
  split.
  - intros rq rm re bytes Hp He. rewrite Hp, He. cbn [bind].
    eexists. split; [reflexivity|]. repeat split.
  - intros Hp. rewrite Hp. reflexivity.
Qed.

Lemma forwarded_reply_answered_witness :
  exists qs',
    iter_operate K0 X_fwd 0 (qs_waiting [0]) module_event_reply (Some 1) =
      Ok qs' /\
    buf qs' = [512] /\
    udp_size (edns qs') = 4096 /\
    ext_state qs' = module_finished.
Proof.
  assert (Hf : fwd_addrlen (modinfo (env (qs_waiting [0]))) <> 0)
    by discriminate.
  destruct (forwarded_reply_answered K0 X_fwd 0 (qs_waiting [0]) 1 [0] Hf
              eq_refl) as (H & _).
  destruct (H qi_example_A (rep msg_CD) edns0 [512] eq_refl eq_refl)
    as (qs' & E & Hb & He & Hx & _).
  exists qs'. split; [exact E|]. split; [exact Hb|]. split; [|exact Hx].
  rewrite He. reflexivity.
Defined.

(** X17. With a forward address no event makes the module look into the
    message cache or the delegation cache, and no event but a new query
    sends anything. *)
Theorem forwarding_never_looks_up K X fuel qs event ob qs' :
  fwd_addrlen (modinfo (env qs)) <> 0 ->
  iter_operate K X fuel qs event ob = Ok qs' ->
  lookups (trace qs') = lookups (trace qs) /\
  (event <> module_event_new -> sends (trace qs') = sends (trace qs)).
Proof.
  intros Hfwd.
  assert (Hby : iter_operate K X fuel qs event ob =
                perform_forward K X qs event ob).
  { unfold iter_operate.
    destruct (Z.eqb_spec (fwd_addrlen (modinfo (env qs))) 0); [contradiction|].
    reflexivity. }
  rewrite Hby.
  assert (Herr : Ok (set_ext_state qs module_error) = Ok qs' ->
                 lookups (trace qs') = lookups (trace qs) /\
                 (event <> module_event_new ->
                  sends (trace qs') = sends (trace qs))).
  { intros E. injection E as <-. split; reflexivity. }
  unfold perform_forward.
  destruct event.
  - unfold fwd_new.
    destruct (region_alloc (qregion qs)) as [[|] r1]; cbn [negb].
    + destruct (send_query X _ _ _ _ _ _ _ _);
        intros E; injection E as <-; (split; [|congruence]);
        unfold lookups; cbn; rewrite filter_app; cbn; apply app_nil_r.
    + intros E. injection E as <-. split; [reflexivity | congruence].
  - destruct ob as [o|]; [|exact Herr].
    unfold iter_handlereply. destruct (reply qs) as [b|]; [|discriminate].
    destruct (reply_info_parse X b) as [[[rq rm] re]|]; [|exact Herr].
    destruct (reply_info_answer_encode X _ _ _ _ _ _ _ _);
      cbn [bind]; intros E; injection E as <-.
    + unfold lookups, sends. cbn. rewrite !filter_app. cbn.
      rewrite !app_nil_r. split; reflexivity.
    + split; reflexivity.
  - destruct ob; exact Herr.
  - destruct ob; exact Herr.
  - destruct ob as [o|]; [|exact Herr].
    intros E. injection E as <-.
    unfold lookups, sends. cbn. rewrite !filter_app. cbn.
    rewrite !app_nil_r. split; reflexivity.
Qed.

Lemma forwarding_never_looks_up_witness :
  exists qs',
    iter_operate K0 X_hit 0 (qs_new qi_example_A ie_fwd []) module_event_new
      None = Ok qs' /\
    lookups (trace qs') = [].
Proof.
  assert (Hf : fwd_addrlen (modinfo (env (qs_new qi_example_A ie_fwd []))) <> 0)
    by discriminate.
  eexists. split; [reflexivity|].
  exact (proj1 (forwarding_never_looks_up K0 X_hit 0
                  (qs_new qi_example_A ie_fwd []) module_event_new None _
                  Hf eq_refl)).
Defined.
